(** * BetSync prototype: odds normalisation, cleaning, risk score

    A shallow embedding of the core of [app.py]: the odds helpers
    [american_to_decimal] and [american_or_decimal], the cleaning step
    (derived columns, [dropna], the empty-frame guard), [herfindahl],
    [clamp01], the weighted [risk_score] and the recommendation list.

    Numbers.  A Python float is modelled by an exact rational extended with
    the two infinities and nan.  Rounding, overflow and underflow of
    binary64 are not modelled; infinities and nan enter through the literals
    that [float()] accepts and propagate by the IEEE rules.  Signed zeros are
    identified.  Where the last bit of a result matters, the module
    [Binary64] runs [herfindahl] on the floats of the machine.

    Text.  A [str] is a [string] of bytes; [strip] removes the ASCII
    characters for which [str.isspace] holds. *)

From Stdlib Require Import ZArith QArith Qround Qabs Qpower Bool List String Ascii.
From Stdlib Require Import DecimalString Permutation Lia Lqa.
From Stdlib Require PrimFloat Uint63.
Import ListNotations.

Local Open Scope Q_scope.

(* ------------------------------------------------------------------ *)
(** ** Floats *)

Module PyFloat.

Inductive float : Type :=
| Fin (q : Q)
| PInf
| NInf
| NaN.

Definition Qltb (a b : Q) : bool := negb (Qle_bool b a).
Definition Qeqb (a b : Q) : bool := Qeq_bool a b.

(** Comparisons: every comparison with nan is false. *)
Definition fleb (a b : float) : bool :=
  match a, b with
  | NaN, _ | _, NaN => false
  | NInf, _ => true
  | _, PInf => true
  | Fin x, Fin y => Qle_bool x y
  | _, _ => false
  end.

Definition fltb (a b : float) : bool :=
  match a, b with
  | NaN, _ | _, NaN => false
  | PInf, _ => false
  | _, NInf => false
  | Fin x, Fin y => Qltb x y
  | _, _ => true
  end.

Definition fgeb (a b : float) : bool := fleb b a.
Definition fgtb (a b : float) : bool := fltb b a.

Definition feqb (a b : float) : bool :=
  match a, b with
  | Fin x, Fin y => Qeqb x y
  | PInf, PInf | NInf, NInf => true
  | _, _ => false
  end.

Definition isnan (a : float) : bool :=
  match a with NaN => true | _ => false end.

Definition isfinite (a : float) : bool :=
  match a with Fin _ => true | _ => false end.

Definition fneg (a : float) : float :=
  match a with
  | Fin x => Fin (- x)
  | PInf => NInf
  | NInf => PInf
  | NaN => NaN
  end.

(** [abs] *)
Definition fabs (a : float) : float :=
  match a with
  | Fin x => Fin (Qabs x)
  | PInf | NInf => PInf
  | NaN => NaN
  end.

Definition fadd (a b : float) : float :=
  match a, b with
  | NaN, _ | _, NaN => NaN
  | Fin x, Fin y => Fin (x + y)
  | PInf, NInf | NInf, PInf => NaN
  | PInf, _ | _, PInf => PInf
  | NInf, _ | _, NInf => NInf
  end.

Definition fsub (a b : float) : float := fadd a (fneg b).

(** Sign of a rational as an infinity, for products and quotients. *)
Definition inf_of_sign (positive : bool) : float :=
  if positive then PInf else NInf.

Definition fmul (a b : float) : float :=
  match a, b with
  | NaN, _ | _, NaN => NaN
  | Fin x, Fin y => Fin (x * y)
  | Fin x, PInf | PInf, Fin x =>
      if Qeqb x 0 then NaN else inf_of_sign (Qltb 0 x)
  | Fin x, NInf | NInf, Fin x =>
      if Qeqb x 0 then NaN else inf_of_sign (Qltb x 0)
  | PInf, PInf | NInf, NInf => PInf
  | PInf, NInf | NInf, PInf => NInf
  end.

(** Division as numpy and IEEE do it: a zero divisor gives an infinity or
    nan, never an exception. *)
Definition np_div (a b : float) : float :=
  match a, b with
  | NaN, _ | _, NaN => NaN
  | Fin x, Fin y =>
      if Qeqb y 0
      then (if Qeqb x 0 then NaN else inf_of_sign (Qltb 0 x))
      else Fin (x / y)
  | Fin _, _ => Fin 0
  | PInf, Fin y => inf_of_sign (Qle_bool 0 y)
  | NInf, Fin y => inf_of_sign (Qltb y 0)
  | _, _ => NaN
  end.

(** Division of Python scalars: a zero divisor raises [ZeroDivisionError],
    here [None]. *)
Definition py_div (a b : float) : option float :=
  match b with
  | Fin y => if Qeqb y 0 then None else Some (np_div a b)
  | _ => Some (np_div a b)
  end.

(** The builtins [min(a, b)] and [max(a, b)]: the first argument is kept
    unless the second compares strictly smaller (larger). *)
Definition py_min (a b : float) : float := if fltb b a then b else a.
Definition py_max (a b : float) : float := if fgtb b a then b else a.

(** [round(x, 1)]: to the nearest tenth, ties to the even tenth. *)
Definition round_half_even (q : Q) : Z :=
  let n := Qfloor q in
  let r := q - inject_Z n in
  if Qltb r (1 # 2) then n
  else if Qltb (1 # 2) r then (n + 1)%Z
  else if Z.even n then n else (n + 1)%Z.

Definition round1 (a : float) : float :=
  match a with
  | Fin x => Fin (inject_Z (round_half_even (x * 10)) / 10)
  | _ => a
  end.

(** Equality of floats up to the representation of the rational. *)
Definition feq (a b : float) : Prop :=
  match a, b with
  | Fin x, Fin y => x == y
  | PInf, PInf | NInf, NInf | NaN, NaN => True
  | _, _ => False
  end.

End PyFloat.
Export PyFloat.

(* ------------------------------------------------------------------ *)
(** ** Text *)

Module Text.

Definition chars (s : string) : list ascii := list_ascii_of_string s.

(** [str.isspace] on one ASCII character: 9..13, 28..31 and 32. *)
Definition isspace (c : ascii) : bool :=
  let n := N_of_ascii c in
  ((9 <=? n) && (n <=? 13) || (28 <=? n) && (n <=? 32))%N.

Fixpoint lstrip (l : list ascii) : list ascii :=
  match l with
  | c :: t => if isspace c then lstrip t else l
  | [] => []
  end.

Definition rstrip (l : list ascii) : list ascii := rev (lstrip (rev l)).

(** [s.strip()] *)
Definition strip (l : list ascii) : list ascii := rstrip (lstrip l).

(** [s.startswith(c)] for a one-character prefix. *)
Definition startswith (l : list ascii) (c : ascii) : bool :=
  match l with
  | h :: _ => Ascii.eqb h c
  | [] => false
  end.

(** [s[1:]] *)
Definition drop1 (l : list ascii) : list ascii := tl l.

Definition lower (c : ascii) : ascii :=
  let n := N_of_ascii c in
  if ((65 <=? n) && (n <=? 90))%N then ascii_of_N (n + 32) else c.

Definition digit_of (c : ascii) : option N :=
  let n := N_of_ascii c in
  if ((48 <=? n) && (n <=? 57))%N then Some (n - 48)%N else None.

Definition isdigit (c : ascii) : bool :=
  match digit_of c with Some _ => true | None => false end.

End Text.
Export Text.

(* ------------------------------------------------------------------ *)
(** ** [float(s)]

    The grammar of the builtin on ASCII text: surrounding white space, an
    optional sign, then [inf], [infinity] or [nan] in any case, or a decimal
    numeral with an optional fraction and exponent; single underscores may
    separate digits.  [None] stands for [ValueError]. *)

Module FloatParse.

Local Open Scope char_scope.

(** A maximal run of digits, a single underscore allowed between two of
    them; returns the digits and the text that follows. *)
Fixpoint span_digits (l : list ascii) : list N * list ascii :=
  match l with
  | c :: t =>
      match digit_of c with
      | Some d =>
          match t with
          | "_" :: ((c2 :: _) as t2) =>
              if isdigit c2
              then let (ds, rest) := span_digits t2 in (d :: ds, rest)
              else ([d], t)
          | _ => let (ds, rest) := span_digits t in (d :: ds, rest)
          end
      | None => ([], l)
      end
  | [] => ([], [])
  end.

Definition digits_value (ds : list N) : N :=
  fold_left (fun acc d => (10 * acc + d)%N) ds 0%N.

(** The number [ip.fp * 10^ex]. *)
Definition decimal_value (ip fp : list N) (ex : Z) : Q :=
  inject_Z (Z.of_N (digits_value (app ip fp)))
  * (10 # 1) ^ (ex - Z.of_nat (List.length fp)).

Definition is_nil {A} (l : list A) : bool :=
  match l with [] => true | _ => false end.

(** The exponent part after [e] or [E]: an optional sign and digits up to the
    end of the text. *)
Definition parse_exponent (l : list ascii) : option Z :=
  let negative := startswith l "-" in
  let body := if negative || startswith l "+" then drop1 l else l in
  let (ds, rest) := span_digits body in
  if is_nil ds || negb (is_nil rest) then None
  else Some (if negative then (- Z.of_N (digits_value ds))%Z
             else Z.of_N (digits_value ds)).

Definition parse_decimal (l : list ascii) : option Q :=
  let (ip, r1) := span_digits l in
  let (fp, r2) :=
    if startswith r1 "." then span_digits (drop1 r1) else ([], r1) in
  if is_nil ip && is_nil fp then None
  else if is_nil r2 then Some (decimal_value ip fp 0)
  else if startswith (map lower r2) "e" then
    match parse_exponent (drop1 r2) with
    | Some ex => Some (decimal_value ip fp ex)
    | None => None
    end
  else None.

(** The text after the sign. *)
Definition is_word (l : list ascii) (w : string) : bool :=
  String.eqb (string_of_list_ascii (map lower l)) w.

Definition parse_unsigned (l : list ascii) : option float :=
  if is_word l "inf" || is_word l "infinity" then Some PInf
  else if is_word l "nan" then Some NaN
  else option_map Fin (parse_decimal l).

Definition parse_float (s : list ascii) : option float :=
  let t := strip s in
  if startswith t "+" then parse_unsigned (drop1 t)
  else if startswith t "-" then option_map fneg (parse_unsigned (drop1 t))
  else parse_unsigned t.

End FloatParse.
Export FloatParse.

(* ------------------------------------------------------------------ *)
(** ** Cells and the odds helpers *)

(** A cell of the frame as [read_csv] leaves it: text, or a float (nan for
    a missing cell).  An integer cell is read through [str] only and is
    represented by its text. *)
Inductive value : Type :=
| VStr (s : string)
| VFloat (f : float).

(** [pd.isna] on a cell. *)
Definition isna (x : value) : bool :=
  match x with
  | VFloat f => isnan f
  | VStr _ => false
  end.

Section Odds.

(** [str] of a float, Python's shortest round-tripping [repr]; it is not
    modelled and stays a parameter. *)
Variable str_float : float -> string.

(** [str(x)] *)
Definition str (x : value) : list ascii :=
  match x with
  | VStr s => chars s
  | VFloat f => chars (str_float f)
  end.

Definition in_decimal_range (v : float) : bool :=
  fleb (Fin (101 # 100)) v && fleb v (Fin 100).

(** [american_to_decimal]; [np.nan] is [NaN]. *)
Definition american_to_decimal (x : value) : float :=
  let s := strip (str x) in
  match parse_float s with
  | None => NaN
  | Some v =>
      if in_decimal_range v then v
      else if startswith s "+" then
        match parse_float (drop1 s) with
        | None => NaN
        | Some a =>
            match py_div a (Fin 100) with
            | Some d => fadd (Fin 1) d
            | None => NaN
            end
        end
      else if fltb v (Fin 0) then
        match py_div (Fin 100) (fabs v) with
        | Some d => fadd (Fin 1) d
        | None => NaN
        end
      else if fgeb v (Fin 100) then
        match py_div v (Fin 100) with
        | Some d => fadd (Fin 1) d
        | None => NaN
        end
      else NaN
  end.

(** [american_or_decimal] *)
Definition american_or_decimal (x : value) : float :=
  let s := strip (str x) in
  if startswith s "-" then
    match parse_float s with
    | None => NaN
    | Some a =>
        match py_div (Fin 100) (fabs a) with
        | Some d => fadd (Fin 1) d
        | None => NaN
        end
    end
  else american_to_decimal (VStr (string_of_list_ascii s)).

End Odds.

(* ------------------------------------------------------------------ *)
(** ** Records, cleaning and the guards of the run *)

(** One row of the uploaded table, by column name. *)
Record WagerRecord : Type := mkWager {
  Book : value;
  Sport : value;
  MarketType : value;
  OddsPlaced : value;
  ClosingOdds : value;
  Stake : value;
  BetTime : value;
  EventTime : value;
  Result : value
}.

(** A row with the derived columns.  A timestamp is a count of microseconds;
    [pd.NaT] is [None]. *)
Record CleanedRecord : Type := mkCleaned {
  raw : WagerRecord;
  OddsPlaced_dec : float;
  ClosingOdds_dec : float;
  BetTime_dt : option Z;
  EventTime_dt : option Z;
  LeadHours : float;
  CLV_pct : float
}.

Record DataFrame : Type := mkFrame {
  columns : list string;
  rows : list WagerRecord
}.

Inductive Outcome : Type :=
| MissingColumns (missing : list string)
    (** [st.error("Missing required columns: ...")], [st.stop()] *)
| NoValidRows
    (** [st.error("No valid rows after cleaning. ...")], [st.stop()] *)
| ToMetrics (df : list CleanedRecord)
    (** the run goes on to the metrics with the cleaned frame *)
| Raised
    (** an exception leaves the script before the guard on the cleaned
        frame *).

Section Pipeline.

Variable str_float : float -> string.

(** [dateutil.parser.parse], an external library: the timestamp in
    microseconds, or [None] when it raises. *)
Variable dateutil_parse : list ascii -> option Z.

(** [parse_dt] *)
Definition parse_dt (x : value) : option Z := dateutil_parse (str str_float x).

(** [(event - bet).dt.total_seconds() / 3600.0] *)
Definition lead_hours (event bet : option Z) : float :=
  match event, bet with
  | Some e, Some b =>
      np_div (np_div (Fin (inject_Z (e - b))) (Fin 1000000)) (Fin 3600)
  | _, _ => NaN
  end.

(** [(closing - placed) / placed * 100.0] *)
Definition clv_pct (closing placed : float) : float :=
  fmul (np_div (fsub closing placed) placed) (Fin 100).

(** The six derived columns of one row. *)
Definition derive (r : WagerRecord) : CleanedRecord :=
  let placed := american_or_decimal str_float (OddsPlaced r) in
  let closing := american_or_decimal str_float (ClosingOdds r) in
  let bet := parse_dt (BetTime r) in
  let event := parse_dt (EventTime r) in
  mkCleaned r placed closing bet event
            (lead_hours event bet) (clv_pct closing placed).

(** The row test of
    [dropna(subset=["OddsPlaced_dec","ClosingOdds_dec","Stake","LeadHours","CLV_pct"])]. *)
Definition has_na (c : CleanedRecord) : bool :=
  isnan (OddsPlaced_dec c) || isnan (ClosingOdds_dec c) || isna (Stake (raw c))
  || isnan (LeadHours c) || isnan (CLV_pct c).

Definition dropna (df : list CleanedRecord) : list CleanedRecord :=
  filter (fun c => negb (has_na c)) df.

Definition clean (records : list WagerRecord) : list CleanedRecord :=
  dropna (map derive records).

Definition required : list string :=
  ["Book"; "Sport"; "MarketType"; "OddsPlaced"; "ClosingOdds"; "Stake";
   "BetTime"; "EventTime"]%string.

(** [[c for c in required if c not in df.columns]] *)
Definition missing (df : DataFrame) : list string :=
  filter (fun c => negb (existsb (String.eqb c) (columns df))) required.

(** Line 105 reads the difference of the two timestamp columns through
    [.dt], which pandas gives to a datetime-like column only.  [apply] on a
    column without rows returns it with its [object] dtype, so on a table
    without rows [.dt] raises [AttributeError]; with at least one row the
    parsed columns are [datetime64] (a timestamp carries no time zone in this
    model).  The helpers of lines 101-104 catch every exception themselves,
    and lines 106 and 108 raise nothing. *)
Definition dt_accessor_raises (records : list WagerRecord) : bool :=
  is_nil records.

(** The run up to the metrics. *)
Definition pipeline (df : DataFrame) : Outcome :=
  match missing df with
  | (_ :: _) as m => MissingColumns m
  | [] =>
      if dt_accessor_raises (rows df) then Raised
      else
        match clean (rows df) with
        | [] => NoValidRows
        | cleaned => ToMetrics cleaned
        end
  end.

End Pipeline.

(* ------------------------------------------------------------------ *)
(** ** Herfindahl index *)

Section Herfindahl.

Variable A : Type.
Variable A_eq_dec : forall x y : A, {x = y} + {x <> y}.

(** [series.value_counts(dropna=False)]: each distinct value with the number
    of its occurrences; a missing value is a value like any other. *)
Definition value_counts (series : list A) : list (A * nat) :=
  map (fun x => (x, count_occ A_eq_dec series x)) (nodup A_eq_dec series).

Definition Qsum (l : list Q) : Q := fold_right Qplus 0 l.

(** [herfindahl] *)
Definition herfindahl (series : list A) : Q :=
  let counts := map (fun p => inject_Z (Z.of_nat (snd p))) (value_counts series) in
  let total := Qsum counts in
  let p := map (fun c => c / total) counts in
  Qsum (map (fun x => x ^ 2) p).

End Herfindahl.

Arguments value_counts {A} A_eq_dec series.
Arguments herfindahl {A} A_eq_dec series.

(** The values of a categorical column: text, or [None] for a missing cell. *)
Definition category : Type := option string.

Definition category_eq_dec (x y : category) : {x = y} + {x <> y}.
Proof. decide equality. apply string_dec. Defined.

(* ------------------------------------------------------------------ *)
(** ** Risk score and recommendations *)

(** [clamp01] *)
Definition clamp01 (v : float) : float :=
  py_max (Fin 0) (py_min (Fin 1) v).

Record AggregateMetrics : Type := mkMetrics {
  avg_clv : float;
  pos_clv_rate : float;
  stake_cv : float;
  market_hhi : float;
  book_hhi : float;
  lead_mean : float;
  lead_std : float
}.

Record SubRisks : Type := mkRisks {
  clv_risk : float;
  posclv_risk : float;
  stake_risk : float;
  market_risk : float;
  book_risk : float;
  lead_mean_risk : float;
  lead_std_risk : float
}.

Definition sub_risks (m : AggregateMetrics) : SubRisks :=
  {| clv_risk := clamp01 (np_div (fsub (avg_clv m) (Fin 1)) (Fin 4));
     posclv_risk :=
       clamp01 (np_div (fsub (pos_clv_rate m) (Fin (55 # 100))) (Fin (25 # 100)));
     stake_risk :=
       clamp01 (np_div (fsub (Fin 12) (py_min (stake_cv m) (Fin 30))) (Fin 12));
     market_risk :=
       clamp01 (np_div (fsub (market_hhi m) (Fin (20 # 100))) (Fin (60 # 100)));
     book_risk :=
       clamp01 (np_div (fsub (book_hhi m) (Fin (25 # 100))) (Fin (60 # 100)));
     lead_mean_risk := clamp01 (np_div (fsub (lead_mean m) (Fin 12)) (Fin 48));
     lead_std_risk :=
       clamp01 (np_div (fsub (Fin 6) (py_min (lead_std m) (Fin 24))) (Fin 6)) |}.

(** The dict [weights]. *)
Definition weights : list (string * float) :=
  [("clv", Fin (28 # 100)); ("posclv", Fin (12 # 100)); ("stake", Fin (16 # 100));
   ("market", Fin (14 # 100)); ("book", Fin (10 # 100));
   ("lead_mean", Fin (10 # 100)); ("lead_std", Fin (10 # 100))]%string.

(** [weights[k]]; every key read below is present. *)
Definition weight (k : string) : float :=
  match find (fun p => String.eqb (fst p) k) weights with
  | Some p => snd p
  | None => NaN
  end.

Definition risk_01 (r : SubRisks) : float :=
  fadd (fadd (fadd (fadd (fadd (fadd
    (fmul (weight "clv") (clv_risk r))
    (fmul (weight "posclv") (posclv_risk r)))
    (fmul (weight "stake") (stake_risk r)))
    (fmul (weight "market") (market_risk r)))
    (fmul (weight "book") (book_risk r)))
    (fmul (weight "lead_mean") (lead_mean_risk r)))
    (fmul (weight "lead_std") (lead_std_risk r)).

Definition risk_score (r : SubRisks) : float :=
  round1 (fmul (Fin 100) (risk_01 r)).

(** The threshold of the recommendations. *)
Definition high (risk : float) : bool := fgtb risk (Fin (6 # 10)).

Definition advice_clv : string :=
  "High positive CLV: mix in later bets or smaller edges to look less sharp.".
Definition advice_posclv : string :=
  "Large share beating the close: add some neutral/coin-flip markets.".
Definition advice_stake : string :=
  "Stake sizes too consistent: vary stakes ±10–25% around your base.".
Definition advice_market : string :=
  "Market concentration high: add 2–3 different markets or sports weekly.".
Definition advice_book : string :=
  "Book concentration high: spread action across additional legal books.".
Definition advice_lead_mean : string :=
  "You bet very early on average: add some closer-to-start bets.".
Definition advice_lead_std : string :=
  "Bet timing is very consistent: randomize time-of-day you place bets.".
Definition neutral_message : string :=
  "Profile looks reasonably recreational. Keep rotating markets, stakes, and timing.".

(** [recs.append(msg)] under its [if]. *)
Definition append_if (b : bool) (msg : string) (recs : list string) : list string :=
  if b then app recs [msg] else recs.

(** The list [recs] after the seven tests. *)
Definition recs (r : SubRisks) : list string :=
  let recs := [] in
  let recs := append_if (high (clv_risk r)) advice_clv recs in
  let recs := append_if (high (posclv_risk r)) advice_posclv recs in
  let recs := append_if (high (stake_risk r)) advice_stake recs in
  let recs := append_if (high (market_risk r)) advice_market recs in
  let recs := append_if (high (book_risk r)) advice_book recs in
  let recs := append_if (high (lead_mean_risk r)) advice_lead_mean recs in
  let recs := append_if (high (lead_std_risk r)) advice_lead_std recs in
  recs.

(** What the page shows under "Recommendations". *)
Inductive widget : Type :=
| Success (text : string)  (** [st.success] *)
| Write (text : string)    (** [st.write] *).

Definition bullet (r : string) : string := String.append "• " r.

Definition recommendations (r : SubRisks) : list widget :=
  match recs r with
  | [] => [Success neutral_message]
  | l => map (fun r => Write (bullet r)) l
  end.

(* ------------------------------------------------------------------ *)
(** ** The case analysis of the odds normaliser, in the words of the design *)

(** Positive American odds: [1 + value/100]. *)
Definition positive_american (v : float) : float :=
  fadd (Fin 1) (np_div v (Fin 100)).

(** Negative American odds: [1 + 100/|value|]; there is no quotient at
    zero, and the result is then invalid. *)
Definition negative_american (v : float) : float :=
  if feqb v (Fin 0) then NaN else fadd (Fin 1) (np_div (Fin 100) (fabs v)).

(** [normalize] on stripped text; [NaN] is [Invalid]. *)
Definition normalize_spec (s : list ascii) : float :=
  if startswith s "-" then
    match parse_float s with
    | Some a => negative_american a
    | None => NaN
    end
  else
    match parse_float s with
    | None => NaN
    | Some v =>
        if in_decimal_range v then v
        else if startswith s "+" then positive_american v
        else if fltb v (Fin 0) then negative_american v
        else if fgeb v (Fin 100) then positive_american v
        else NaN
    end.

(* ------------------------------------------------------------------ *)
(** ** Vocabulary of the statements *)

(** Text with no white space at either end. *)
Definition trimmed (l : list ascii) : Prop :=
  lstrip l = l /\ lstrip (rev l) = rev l.

(** A parsed value that carries no minus sign. *)
Definition unsigned (v : float) : Prop :=
  match v with
  | Fin q => 0 <= q
  | PInf | NaN => True
  | NInf => False
  end.

(** A character that cannot start the text after the sign: white space or
    a sign. *)
Definition sign_or_space (c : ascii) : bool :=
  isspace c || Ascii.eqb c "+" || Ascii.eqb c "-".

(** A cell that holds a finite number. *)
Definition is_finite_number (x : value) : bool :=
  match x with
  | VFloat f => isfinite f
  | VStr _ => false
  end.

(** The invariant of a cleaned record as the data model words it: both
    decimal odds above 1.0, and the five numeric fields finite numbers. *)
Definition stated_invariant (c : CleanedRecord) : Prop :=
  fltb (Fin 1) (OddsPlaced_dec c) = true
  /\ fltb (Fin 1) (ClosingOdds_dec c) = true
  /\ isfinite (OddsPlaced_dec c) = true
  /\ isfinite (ClosingOdds_dec c) = true
  /\ is_finite_number (Stake (raw c)) = true
  /\ isfinite (LeadHours c) = true
  /\ isfinite (CLV_pct c) = true.

(** What the code keeps: odds of at least 1.0, the placed odds finite, the
    closing odds possibly infinite, and no nan or missing value in the five
    columns of [dropna]. *)
Definition kept_invariant (c : CleanedRecord) : Prop :=
  fleb (Fin 1) (OddsPlaced_dec c) = true
  /\ isfinite (OddsPlaced_dec c) = true
  /\ fleb (Fin 1) (ClosingOdds_dec c) = true
  /\ isna (Stake (raw c)) = false
  /\ isfinite (LeadHours c) = true
  /\ isnan (CLV_pct c) = false.

(** A float that is a rational between two bounds. *)
Definition between (lo hi : Q) (v : float) : Prop :=
  exists q, v = Fin q /\ lo <= q <= hi.

(** The seven sub-risks with their advice, in the order of the tests. *)
Definition advice_table (r : SubRisks) : list (float * string) :=
  [(clv_risk r, advice_clv); (posclv_risk r, advice_posclv);
   (stake_risk r, advice_stake); (market_risk r, advice_market);
   (book_risk r, advice_book); (lead_mean_risk r, advice_lead_mean);
   (lead_std_risk r, advice_lead_std)].

Definition triggered (r : SubRisks) : list string :=
  map snd (filter (fun p => high (fst p)) (advice_table r)).

(* ------------------------------------------------------------------ *)
(** ** Instances of the two parameters, to run the model on examples *)

Module Sample.

(** Decimal printing of a float with at most 16 digits after the point.  It
    agrees with [repr] on the floats with a short decimal expansion. *)
Fixpoint frac_digits (fuel : nat) (r d : N) : list ascii :=
  match fuel with
  | O => []
  | S fuel' =>
      if (r =? 0)%N then []
      else ascii_of_N (48 + (r * 10) / d) :: frac_digits fuel' ((r * 10) mod d) d
  end.

Definition repr_decimal (f : float) : string :=
  match f with
  | NaN => "nan"
  | PInf => "inf"
  | NInf => "-inf"
  | Fin q =>
      let n := Z.to_N (Z.abs (Qnum q)) in
      let d := Npos (Qden q) in
      let sign := if (Qnum q <? 0)%Z then "-" else "" in
      let ip := NilZero.string_of_uint (N.to_uint (n / d)) in
      let fp := match frac_digits 16 (n mod d) d with
                | [] => "0"
                | l => string_of_list_ascii l
                end in
      String.append sign (String.append ip (String.append "." fp))
  end%string.

(** Days from 1970-01-01 to a date of the proleptic Gregorian calendar. *)
Definition days_from_civil (y m d : Z) : Z :=
  let y' := if (m <=? 2)%Z then (y - 1)%Z else y in
  let era := (y' / 400)%Z in
  let yoe := (y' - era * 400)%Z in
  let mp := if (2 <? m)%Z then (m - 3)%Z else (m + 9)%Z in
  let doy := ((153 * mp + 2) / 5 + d - 1)%Z in
  let doe := (yoe * 365 + yoe / 4 - yoe / 100 + doy)%Z in
  (era * 146097 + doe - 719468)%Z.

Definition number_of (l : list ascii) : option Z :=
  if forallb isdigit l && negb (is_nil l)
  then Some (Z.of_N (digits_value (fst (span_digits l))))
  else None.

(** A parser of the one layout [YYYY-MM-DD HH:MM:SS], the layout of the
    sample file of the page; any other text is refused. *)
Definition iso_parse (l : list ascii) : option Z :=
  match l with
  | [y1; y2; y3; y4; c1; m1; m2; c2; d1; d2; c3; h1; h2; c4; n1; n2; c5; s1; s2] =>
      if (Ascii.eqb c1 "-" && Ascii.eqb c2 "-" && Ascii.eqb c3 " "
          && Ascii.eqb c4 ":" && Ascii.eqb c5 ":")%bool
      then
        match number_of [y1; y2; y3; y4], number_of [m1; m2], number_of [d1; d2],
              number_of [h1; h2], number_of [n1; n2], number_of [s1; s2] with
        | Some y, Some m, Some d, Some h, Some n, Some s =>
            if ((1 <=? m) && (m <=? 12) && (1 <=? d) && (d <=? 31)
                && (h <? 24) && (n <? 60) && (s <? 60))%Z
            then Some ((((days_from_civil y m d * 24 + h) * 60 + n) * 60 + s)
                       * 1000000)%Z
            else None
        | _, _, _, _, _, _ => None
        end
      else None
  | _ => None
  end.

(** The first row of the sample file, with other odds and stakes. *)
Definition wager (placed closing : string) (stake : value) : WagerRecord :=
  {| Book := VStr "Bet99"; Sport := VStr "NBA"; MarketType := VStr "PlayerPoints";
     OddsPlaced := VStr placed; ClosingOdds := VStr closing; Stake := stake;
     BetTime := VStr "2025-10-10 13:00:00";
     EventTime := VStr "2025-10-10 19:30:00";
     Result := VStr "W" |}.

Definition all_columns : list string :=
  ["Book"; "Sport"; "MarketType"; "OddsPlaced"; "ClosingOdds"; "Stake";
   "BetTime"; "EventTime"; "Result"]%string.

End Sample.

(* ------------------------------------------------------------------ *)
(** ** The metrics that are means, and the badge *)

(** [Series.mean()] of a float column: nan entries are skipped, and the mean
    of no entry is nan. *)
Definition series_mean (l : list float) : float :=
  let xs := filter (fun x => negb (isnan x)) l in
  np_div (fold_left fadd xs (Fin 0)) (Fin (inject_Z (Z.of_nat (List.length xs)))).

(** [Series.mean()] of a boolean column: the share of [True]. *)
Definition bool_mean (l : list bool) : float :=
  np_div (Fin (inject_Z (Z.of_nat (List.length (filter (fun b => b) l)))))
         (Fin (inject_Z (Z.of_nat (List.length l)))).

(** [avg_clv = df["CLV_pct"].mean()] *)
Definition avg_clv_of (df : list CleanedRecord) : float :=
  series_mean (map CLV_pct df).

(** [pos_clv_rate = (df["CLV_pct"] > 0).mean()] *)
Definition pos_clv_rate_of (df : list CleanedRecord) : float :=
  bool_mean (map (fun c => fgtb (CLV_pct c) (Fin 0)) df).

(** [lead_mean = df["LeadHours"].mean()] *)
Definition lead_mean_of (df : list CleanedRecord) : float :=
  series_mean (map LeadHours df).

(** The badge beside the score. *)
Definition badge (risk_score : float) : string :=
  if fgeb risk_score (Fin 66) then "🔴"
  else if fgeb risk_score (Fin 40) then "🟠"
  else "🟢".

(** The invariant of a running sum of values above -100: infinite, or a
    rational above a bound. *)
Definition sum_above (lo : Q) (a : float) : Prop :=
  a = PInf \/ exists q, a = Fin q /\ lo < q.

(** Sub-risks that all lie in [0, 1], as [clamp01] leaves them. *)
Definition unit_risks (r : SubRisks) : Prop :=
  between 0 1 (clv_risk r) /\ between 0 1 (posclv_risk r)
  /\ between 0 1 (stake_risk r) /\ between 0 1 (market_risk r)
  /\ between 0 1 (book_risk r) /\ between 0 1 (lead_mean_risk r)
  /\ between 0 1 (lead_std_risk r).

(** Each sub-risk of [r] is at most that of [r']. *)
Definition risks_le (r r' : SubRisks) : Prop :=
  fleb (clv_risk r) (clv_risk r') = true
  /\ fleb (posclv_risk r) (posclv_risk r') = true
  /\ fleb (stake_risk r) (stake_risk r') = true
  /\ fleb (market_risk r) (market_risk r') = true
  /\ fleb (book_risk r) (book_risk r') = true
  /\ fleb (lead_mean_risk r) (lead_mean_risk r') = true
  /\ fleb (lead_std_risk r) (lead_std_risk r') = true.

(** The metrics [m'] look at least as sharp as [m]: CLV, beat-close rate,
    concentrations and mean lead time are not lower, stake variation and
    lead-time deviation are not higher. *)
Definition sharper (m m' : AggregateMetrics) : Prop :=
  fleb (avg_clv m) (avg_clv m') = true
  /\ fleb (pos_clv_rate m) (pos_clv_rate m') = true
  /\ fleb (stake_cv m') (stake_cv m) = true
  /\ fleb (market_hhi m) (market_hhi m') = true
  /\ fleb (book_hhi m) (book_hhi m') = true
  /\ fleb (lead_mean m) (lead_mean m') = true
  /\ fleb (lead_std m') (lead_std m) = true.

(** The metrics at the calm end of every band, and at the sharp end. *)
Definition calm_metrics : AggregateMetrics :=
  mkMetrics (Fin 1) (Fin (55 # 100)) (Fin 12) (Fin (20 # 100)) (Fin (25 # 100))
            (Fin 12) (Fin 6).

Definition sharp_metrics : AggregateMetrics :=
  mkMetrics (Fin 5) (Fin (80 # 100)) (Fin 0) (Fin (80 # 100)) (Fin (85 # 100))
            (Fin 60) (Fin 0).

(* ------------------------------------------------------------------ *)
(** ** [herfindahl] on binary64 floats

    The same three lines as [herfindahl], on the floats of the machine, to
    compute what the code returns on a given column. *)

Module Binary64.

Import PrimFloat.






End Binary64.

(* ------------------------------------------------------------------ *)
(** * Properties *)

(** ** Rationals and floats *)

Lemma Qltb_lt (a b : Q) : Qltb a b = true <-> a < b.
Proof.
  unfold Qltb. rewrite negb_true_iff.
  destruct (Qle_bool b a) eqn:E.
  - apply Qle_bool_iff in E. split; [discriminate | intro H; lra].
  - split; [intros _ | reflexivity].
    destruct (Qlt_le_dec a b) as [H | H]; [exact H |].
    apply Qle_bool_iff in H. congruence.
Qed.

Lemma Qltb_ge (a b : Q) : Qltb a b = false <-> b <= a.
Proof.
  unfold Qltb. rewrite negb_false_iff. apply Qle_bool_iff.
Qed.

Lemma Qeqb_eq (a b : Q) : Qeqb a b = true <-> a == b.
Proof. apply Qeq_bool_iff. Qed.

Lemma Qeqb_neq (a b : Q) : Qeqb a b = false <-> ~ a == b.
Proof.
  unfold Qeqb. destruct (Qeq_bool a b) eqn:E.
  - apply Qeq_bool_iff in E. split; [discriminate | contradiction].
  - split; [| reflexivity]. intros _ H. apply Qeq_bool_iff in H. congruence.
Qed.

Lemma Qeqb_abs_0 (q : Q) : Qeqb (Qabs q) 0 = Qeqb q 0.
Proof.
  destruct (Qeqb q 0) eqn:E.
  - apply Qeqb_eq in E. apply Qeqb_eq. rewrite E. reflexivity.
  - apply Qeqb_neq in E. apply Qeqb_neq. intro H. apply E.
    revert H. apply Qabs_case; intros; lra.
Qed.

(** ** [strip] *)

Lemma lstrip_split (l : list ascii) :
  exists ws, l = app ws (lstrip l) /\ forallb isspace ws = true.
Proof.
  induction l as [| c t IH]; simpl.
  - exists []. split; reflexivity.
  - destruct (isspace c) eqn:E.
    + destruct IH as [ws [H1 H2]]. exists (c :: ws). simpl.
      rewrite E, H2. split; [f_equal; exact H1 | reflexivity].
    + exists []. split; reflexivity.
Qed.

Lemma lstrip_head (l : list ascii) (c : ascii) (t : list ascii) :
  lstrip l = c :: t -> isspace c = false.
Proof.
  induction l as [| a u IH]; simpl; [discriminate |].
  destruct (isspace a) eqn:E; [exact IH |].
  intros H. injection H as <- _. exact E.
Qed.

Lemma lstrip_fixed (c : ascii) (t : list ascii) :
  isspace c = false -> lstrip (c :: t) = c :: t.
Proof. intros H. simpl. rewrite H. reflexivity. Qed.

Lemma lstrip_idem (l : list ascii) : lstrip (lstrip l) = lstrip l.
Proof.
  destruct (lstrip l) as [| c t] eqn:E; [reflexivity |].
  apply lstrip_fixed. exact (lstrip_head _ _ _ E).
Qed.

Lemma lstrip_length (l : list ascii) :
  (List.length (lstrip l) <= List.length l)%nat.
Proof.
  induction l as [| c t IH]; simpl; [lia |].
  destruct (isspace c); simpl; lia.
Qed.

Lemma lstrip_fixed_head (c : ascii) (t : list ascii) :
  lstrip (c :: t) = c :: t -> isspace c = false.
Proof.
  intros H. destruct (isspace c) eqn:E; [| reflexivity].
  simpl in H. rewrite E in H.
  pose proof (lstrip_length t) as L. rewrite H in L. simpl in L. lia.
Qed.

Lemma trimmed_strip (l : list ascii) : trimmed l -> strip l = l.
Proof.
  intros [H1 H2]. unfold strip, rstrip. rewrite H1, H2. apply rev_involutive.
Qed.

Lemma strip_trimmed (l : list ascii) : trimmed (strip l).
Proof.
  unfold trimmed, strip, rstrip. split.
  - destruct (lstrip_split (rev (lstrip l))) as [ws [H1 H2]].
    remember (lstrip (rev (lstrip l))) as k eqn:Ek.
    destruct (rev k) as [| c t] eqn:Er; [reflexivity |].
    apply lstrip_fixed.
    assert (Hm : lstrip l = app (rev k) (rev ws)).
    { rewrite <- rev_app_distr, <- H1. symmetry. apply rev_involutive. }
    rewrite Er in Hm. simpl in Hm. exact (lstrip_head _ _ _ Hm).
  - rewrite rev_involutive. apply lstrip_idem.
Qed.

Lemma strip_idem (l : list ascii) : strip (strip l) = strip l.
Proof. apply trimmed_strip, strip_trimmed. Qed.

(** The tail of trimmed text is trimmed when it does not begin with white
    space. *)
Lemma trimmed_tail (c d : ascii) (t : list ascii) :
  trimmed (c :: d :: t) -> isspace d = false -> trimmed (d :: t).
Proof.
  intros [_ H2] Hd. split; [apply lstrip_fixed; exact Hd |].
  destruct (rev (d :: t)) as [| e u] eqn:Er.
  - apply (f_equal (@List.length ascii)) in Er.
    rewrite length_rev in Er. discriminate.
  - apply lstrip_fixed.
    change (rev (c :: d :: t)) with (app (rev (d :: t)) [c]) in H2.
    rewrite Er in H2. simpl in H2.
    exact (lstrip_fixed_head _ _ H2).
Qed.

Lemma chars_of_list (l : list ascii) : chars (string_of_list_ascii l) = l.
Proof. apply list_ascii_of_string_of_list_ascii. Qed.

(** ** [float(s)] *)

Lemma decimal_value_nonneg (ip fp : list N) (ex : Z) : 0 <= decimal_value ip fp ex.
Proof.
  unfold decimal_value. apply Qmult_le_0_compat.
  - change 0 with (inject_Z 0). rewrite <- Zle_Qle. apply N2Z.is_nonneg.
  - apply Qpower_0_le. discriminate.
Qed.

Lemma parse_decimal_nonneg (l : list ascii) (q : Q) :
  parse_decimal l = Some q -> 0 <= q.
Proof.
  unfold parse_decimal.
  destruct (span_digits l) as [ip r1].
  destruct (if startswith r1 "." then span_digits (drop1 r1) else ([], r1))
    as [fp r2].
  destruct (is_nil ip && is_nil fp); [discriminate |].
  destruct (is_nil r2).
  - intros H. injection H as <-. apply decimal_value_nonneg.
  - destruct (startswith (map lower r2) "e"); [| discriminate].
    destruct (parse_exponent (drop1 r2)); [| discriminate].
    intros H. injection H as <-. apply decimal_value_nonneg.
Qed.

Lemma parse_unsigned_unsigned (l : list ascii) (v : float) :
  parse_unsigned l = Some v -> unsigned v.
Proof.
  unfold parse_unsigned.
  destruct (is_word l "inf" || is_word l "infinity").
  - intros H. injection H as <-. exact I.
  - destruct (is_word l "nan").
    + intros H. injection H as <-. exact I.
    + destruct (parse_decimal l) as [q |] eqn:E; simpl; [| discriminate].
      intros H. injection H as <-. exact (parse_decimal_nonneg _ _ E).
Qed.

Lemma parse_unsigned_nil : parse_unsigned [] = None.
Proof. reflexivity. Qed.

Lemma parse_unsigned_head (c : ascii) (t : list ascii) (v : float) :
  parse_unsigned (c :: t) = Some v -> sign_or_space c = false.
Proof.
  destruct (sign_or_space c) eqn:E; [| reflexivity].
  intros H. exfalso. revert H.
  destruct c as [[] [] [] [] [] [] [] []]; try discriminate E; clear E;
    unfold parse_unsigned, is_word, parse_decimal; simpl; discriminate.
Qed.

Lemma parse_float_plus (s : list ascii) (v : float) :
  trimmed s -> startswith s "+" = true -> parse_float s = Some v ->
  parse_float (drop1 s) = Some v /\ unsigned v.
Proof.
  intros Ht Hp. unfold parse_float.
  rewrite (trimmed_strip _ Ht), Hp.
  destruct s as [| c t]; [discriminate |]. simpl drop1.
  intros Hv. split; [| exact (parse_unsigned_unsigned _ _ Hv)].
  destruct t as [| d t']; [rewrite parse_unsigned_nil in Hv; discriminate |].
  pose proof (parse_unsigned_head _ _ _ Hv) as Hd.
  unfold sign_or_space in Hd.
  apply orb_false_iff in Hd. destruct Hd as [Hd Hm].
  apply orb_false_iff in Hd. destruct Hd as [Hs Hpl].
  rewrite (trimmed_strip (d :: t')) by (apply (trimmed_tail c); assumption).
  simpl startswith. rewrite Hpl, Hm. exact Hv.
Qed.

(** ** The code against the case analysis of the design *)

Lemma py_div_100 (v : float) : py_div v (Fin 100) = Some (np_div v (Fin 100)).
Proof. reflexivity. Qed.

Lemma py_div_abs (a : float) :
  match py_div (Fin 100) (fabs a) with
  | Some d => fadd (Fin 1) d
  | None => NaN
  end = negative_american a.
Proof.
  unfold negative_american, py_div.
  destruct a as [q | | |]; simpl; try reflexivity.
  rewrite Qeqb_abs_0. destruct (Qeqb q 0); reflexivity.
Qed.

Section OddsFacts.

Variable str_float : float -> string.

Lemma american_to_decimal_spec (s : list ascii) :
  trimmed s -> startswith s "-" = false ->
  american_to_decimal str_float (VStr (string_of_list_ascii s)) = normalize_spec s.
Proof.
  intros Ht Hm. unfold american_to_decimal, normalize_spec. simpl str.
  rewrite chars_of_list, (trimmed_strip _ Ht), Hm.
  destruct (parse_float s) as [v |] eqn:Ev; [| reflexivity].
  destruct (in_decimal_range v); [reflexivity |].
  destruct (startswith s "+") eqn:Ep.
  - destruct (parse_float_plus _ _ Ht Ep Ev) as [-> _]. reflexivity.
  - destruct (fltb v (Fin 0)); [apply py_div_abs |].
    destruct (fgeb v (Fin 100)); reflexivity.
Qed.

Lemma american_or_decimal_spec (x : value) :
  american_or_decimal str_float x = normalize_spec (strip (str str_float x)).
Proof.
  unfold american_or_decimal.
  destruct (startswith (strip (str str_float x)) "-") eqn:Hm.
  - unfold normalize_spec. rewrite Hm.
    destruct (parse_float (strip (str str_float x))); [apply py_div_abs | reflexivity].
  - apply american_to_decimal_spec; [apply strip_trimmed | exact Hm].
Qed.

End OddsFacts.

(** ** The normaliser never goes below 1 *)

Lemma fleb_Fin (a b : Q) : fleb (Fin a) (Fin b) = true <-> a <= b.
Proof. simpl. apply Qle_bool_iff. Qed.

Lemma fltb_Fin (a b : Q) : fltb (Fin a) (Fin b) = true <-> a < b.
Proof. simpl. apply Qltb_lt. Qed.

Lemma in_decimal_range_ge_1 (v : float) :
  in_decimal_range v = true -> fleb (Fin 1) v = true /\ isfinite v = true.
Proof.
  unfold in_decimal_range. intros H. apply andb_true_iff in H.
  destruct H as [H1 H2]. destruct v as [q | | |]; try discriminate.
  split; [| reflexivity].
  apply fleb_Fin in H1. apply fleb_Fin. lra.
Qed.

Lemma Qdiv_nonneg (a b : Q) : 0 <= a -> 0 <= b -> 0 <= a / b.
Proof.
  intros Ha Hb. unfold Qdiv. apply Qmult_le_0_compat; [exact Ha |].
  apply Qinv_le_0_compat. exact Hb.
Qed.

Lemma positive_american_ge_1 (v : float) :
  unsigned v -> isnan (positive_american v) = false ->
  fleb (Fin 1) (positive_american v) = true.
Proof.
  destruct v as [q | | |]; simpl; try discriminate; try reflexivity.
  - intros Hq _. apply Qle_bool_iff.
    pose proof (Qdiv_nonneg q 100 Hq ltac:(lra)). lra.
  - contradiction.
Qed.

Lemma negative_american_ge_1 (v : float) :
  isnan (negative_american v) = false ->
  fleb (Fin 1) (negative_american v) = true.
Proof.
  unfold negative_american.
  destruct v as [q | | |]; simpl; try discriminate; try reflexivity.
  destruct (Qeqb q 0) eqn:E; [discriminate |].
  rewrite Qeqb_abs_0, E. intros _. apply Qle_bool_iff.
  pose proof (Qdiv_nonneg 100 (Qabs q) ltac:(lra) (Qabs_nonneg q)). lra.
Qed.

Lemma fgeb_100_unsigned (v : float) : fgeb v (Fin 100) = true -> unsigned v.
Proof.
  destruct v as [q | | |]; simpl; try discriminate; try (intros; exact I).
  intros H. apply Qle_bool_iff in H. lra.
Qed.

Lemma normalize_spec_ge_1 (s : list ascii) :
  trimmed s -> isnan (normalize_spec s) = false ->
  fleb (Fin 1) (normalize_spec s) = true.
Proof.
  intros Ht. unfold normalize_spec.
  destruct (startswith s "-").
  - destruct (parse_float s); [apply negative_american_ge_1 | discriminate].
  - destruct (parse_float s) as [v |] eqn:Ev; [| discriminate].
    destruct (in_decimal_range v) eqn:Er.
    + intros _. exact (proj1 (in_decimal_range_ge_1 _ Er)).
    + destruct (startswith s "+") eqn:Ep.
      * apply positive_american_ge_1.
        exact (proj2 (parse_float_plus _ _ Ht Ep Ev)).
      * destruct (fltb v (Fin 0)); [apply negative_american_ge_1 |].
        destruct (fgeb v (Fin 100)) eqn:Eg; [| discriminate].
        apply positive_american_ge_1. exact (fgeb_100_unsigned _ Eg).
Qed.

Lemma american_or_decimal_ge_1 (str_float : float -> string) (x : value) :
  isnan (american_or_decimal str_float x) = false ->
  fleb (Fin 1) (american_or_decimal str_float x) = true.
Proof.
  rewrite american_or_decimal_spec. apply normalize_spec_ge_1, strip_trimmed.
Qed.

(* ------------------------------------------------------------------ *)
(** ** Odds normalisation *)

Section NormalizeTheorems.

Variable str_float : float -> string.

(** C1.  For every input, [american_or_decimal] follows the case analysis of
    the design on the stripped text: text that starts with [-] is parsed and
    converted as negative American odds, [1 + 100/|value|], with no look at
    the decimal range (text that does not parse, and a zero value, give
    Invalid); any other text is parsed (Invalid when it does not parse), a
    value in [1.01, 100] is returned unchanged, else text with a leading [+]
    gives [1 + value/100], else a negative value gives [1 + 100/|value|],
    else a value of 100 or more gives [1 + value/100], else Invalid.  On the
    four inputs of the design: "+110" gives 2.10, "-120" gives 11/6 =
    1.8333..., "2.05" gives 2.05 and "abc" gives Invalid. *)
Theorem C1_normalize_case_analysis :
  (forall x : value, american_or_decimal str_float x = normalize_spec (strip (str str_float x)))
  /\ feq (american_or_decimal str_float (VStr "+110")) (Fin (210 # 100))
  /\ feq (american_or_decimal str_float (VStr "-120")) (Fin (11 # 6))
  /\ feq (american_or_decimal str_float (VStr "2.05")) (Fin (205 # 100))
  /\ american_or_decimal str_float (VStr "abc") = NaN.
Proof.
  split; [exact (american_or_decimal_spec str_float) |].
  repeat split; vm_compute; reflexivity.
Qed.

(** C10.  Whenever [american_or_decimal] returns a number and not nan, the
    number is at least 1.0; the bound is attained, by the input "+0". *)
Theorem C10_normalize_at_least_one :
  (forall x : value, isnan (american_or_decimal str_float x) = false -> fleb (Fin 1) (american_or_decimal str_float x) = true)
  /\ feq (american_or_decimal str_float (VStr "+0")) (Fin 1).
Proof.
  split.
  - intros x. apply american_or_decimal_ge_1.
  - vm_compute. reflexivity.
Qed.

Lemma in_range_not_minus (s : list ascii) (v : float) :
  parse_float s = Some v -> in_decimal_range v = true ->
  startswith (strip s) "-" = false.
Proof.
  unfold parse_float. intros Hp Hr.
  destruct (startswith (strip s) "-") eqn:Em; [exfalso | reflexivity].
  assert (Hplus : startswith (strip s) "+" = false).
  { destruct (strip s) as [| c t]; [discriminate |]. simpl in *.
    apply Ascii.eqb_eq in Em. subst c. reflexivity. }
  rewrite Hplus in Hp.
  destruct (parse_unsigned (drop1 (strip s))) as [u |] eqn:Eu; [| discriminate].
  apply parse_unsigned_unsigned in Eu. simpl in Hp. injection Hp as <-.
  unfold in_decimal_range in Hr. apply andb_true_iff in Hr. destruct Hr as [H1 _].
  destruct u as [q | | |]; simpl in *; try discriminate; try contradiction.
  apply Qle_bool_iff in H1. lra.
Qed.

Lemma normalize_in_range (x : value) (v : float) :
  parse_float (str str_float x) = Some v -> in_decimal_range v = true ->
  american_or_decimal str_float x = v.
Proof.
  intros Hp Hr. rewrite american_or_decimal_spec.
  unfold normalize_spec.
  rewrite (in_range_not_minus _ _ Hp Hr).
  assert (Hs : parse_float (strip (str str_float x)) = Some v).
  { unfold parse_float in *. rewrite strip_idem. exact Hp. }
  rewrite Hs, Hr. reflexivity.
Qed.

(** C9.  On text [x] that [float()] reads as a decimal number [v] in
    [1.01, 100.0], normalising is idempotent: the first pass returns [v], and
    so does a second pass on that result.  The second pass reads [str(v)];
    that [float(str(v))] is [v] again is the round trip of Python's [repr]. *)
Theorem C9_normalize_idempotent (x : value) (v : float) :
  parse_float (str str_float x) = Some v ->
  in_decimal_range v = true ->
  parse_float (chars (str_float v)) = Some v ->
  american_or_decimal str_float x = v /\ american_or_decimal str_float (VFloat (american_or_decimal str_float x)) = american_or_decimal str_float x.
Proof.
  intros Hp Hr Hrt.
  rewrite (normalize_in_range x v Hp Hr).
  split; [reflexivity |].
  apply normalize_in_range; [exact Hrt | exact Hr].
Qed.

End NormalizeTheorems.

Lemma C9_witness :
  let x := VStr "2.05" in
  let v := Fin (205 # 100) in
  parse_float (str Sample.repr_decimal x) = Some v
  /\ in_decimal_range v = true
  /\ parse_float (chars (Sample.repr_decimal v)) = Some v
  /\ american_or_decimal Sample.repr_decimal
       (VFloat (american_or_decimal Sample.repr_decimal x))
     = american_or_decimal Sample.repr_decimal x.
Proof.
  assert (H1 : parse_float (str Sample.repr_decimal (VStr "2.05"))
               = Some (Fin (205 # 100))) by reflexivity.
  assert (H2 : in_decimal_range (Fin (205 # 100)) = true) by reflexivity.
  assert (H3 : parse_float (chars (Sample.repr_decimal (Fin (205 # 100))))
               = Some (Fin (205 # 100))) by reflexivity.
  intros x v.
  split; [exact H1 |]. split; [exact H2 |]. split; [exact H3 |].
  exact (proj2 (C9_normalize_idempotent Sample.repr_decimal _ _ H1 H2 H3)).
Defined.

Lemma C10_witness :
  isnan (american_or_decimal Sample.repr_decimal (VStr "-120")) = false
  /\ fleb (Fin 1) (american_or_decimal Sample.repr_decimal (VStr "-120")) = true.
Proof.
  split; [reflexivity |].
  apply (proj1 (C10_normalize_at_least_one Sample.repr_decimal)). reflexivity.
Defined.

(* ------------------------------------------------------------------ *)
(** ** Cleaning *)

Section CleanFacts.

Variable str_float : float -> string.
Variable dateutil_parse : list ascii -> option Z.

Lemma clean_In (records : list WagerRecord) (c : CleanedRecord) :
  In c (clean str_float dateutil_parse records) <->
  exists r, In r records /\ c = derive str_float dateutil_parse r /\ has_na c = false.
Proof.
  unfold clean, dropna. rewrite filter_In, in_map_iff, negb_true_iff.
  split.
  - intros [[r [Hr Hin]] Hna]. exists r. auto.
  - intros [r [Hin [Hr Hna]]]. split; [exists r; auto | exact Hna].
Qed.

Lemma has_na_false (c : CleanedRecord) :
  has_na c = false ->
  isnan (OddsPlaced_dec c) = false /\ isnan (ClosingOdds_dec c) = false
  /\ isna (Stake (raw c)) = false /\ isnan (LeadHours c) = false
  /\ isnan (CLV_pct c) = false.
Proof.
  unfold has_na. intros H.
  repeat (apply orb_false_iff in H; destruct H as [H ?]). auto.
Qed.

Lemma lead_hours_finite (e b : option Z) :
  isnan (lead_hours e b) = false -> isfinite (lead_hours e b) = true.
Proof. destruct e, b; simpl; try discriminate. reflexivity. Qed.

(** With placed odds of at least 1, a CLV that is not nan forces the placed
    odds to be finite and has the sign of [closing - placed]. *)
Lemma clv_pct_sign (closing placed : float) :
  fleb (Fin 1) placed = true -> fleb (Fin 1) closing = true ->
  isnan (clv_pct closing placed) = false ->
  isfinite placed = true
  /\ (fgtb (clv_pct closing placed) (Fin 0) = true <-> fgtb closing placed = true)
  /\ (feqb (clv_pct closing placed) (Fin 0) = true <-> feqb closing placed = true)
  /\ (fltb (clv_pct closing placed) (Fin 0) = true <-> fltb closing placed = true).
Proof.
  unfold clv_pct, fgtb.
  destruct placed as [p | | |], closing as [q | | |]; simpl;
    try discriminate; intros Hp Hq Hn.
  - apply Qle_bool_iff in Hp. apply Qle_bool_iff in Hq.
    assert (Hp0 : Qeqb p 0 = false) by (apply Qeqb_neq; lra).
    rewrite Hp0. simpl.
    assert (Hd : 0 < / p) by (apply Qinv_lt_0_compat; lra).
    assert (Hs : (q + - p) / p * 100 == (q - p) * (/ p * 100)).
    { unfold Qdiv, Qminus. ring. }
    assert (Hk : 0 < / p * 100) by (apply Qmult_lt_0_compat; lra).
    split; [reflexivity |].
    rewrite !Qltb_lt, !Qeqb_eq, Hs.
    repeat split; intros H.
    + destruct (Qlt_le_dec p q) as [Hlt | Hle]; [exact Hlt | exfalso].
      assert (q - p <= 0) by lra.
      pose proof (Qmult_le_compat_r (q - p) 0 (/ p * 100) H0 ltac:(lra)). lra.
    + apply Qmult_lt_0_compat; lra.
    + destruct (Qeq_dec q p) as [He | Hne]; [exact He | exfalso].
      apply Qmult_integral in H. destruct H; lra.
    + rewrite H. ring.
    + destruct (Qlt_le_dec q p) as [Hlt | Hle]; [exact Hlt | exfalso].
      pose proof (Qmult_le_0_compat (q - p) (/ p * 100) ltac:(lra) ltac:(lra)). lra.
    + assert (H0 : 0 < (p - q) * (/ p * 100)) by (apply Qmult_lt_0_compat; lra).
      assert (He : (q - p) * (/ p * 100) == - ((p - q) * (/ p * 100))) by ring.
      rewrite He. lra.
  - apply Qle_bool_iff in Hp.
    assert (Hp0 : Qle_bool 0 p = true) by (apply Qle_bool_iff; lra).
    rewrite Hp0. simpl.
    split; [reflexivity |]. repeat split; intros; try discriminate; reflexivity.
Qed.

Lemma clean_kept (records : list WagerRecord) (c : CleanedRecord) :
  In c (clean str_float dateutil_parse records) ->
  fleb (Fin 1) (OddsPlaced_dec c) = true
  /\ fleb (Fin 1) (ClosingOdds_dec c) = true
  /\ isna (Stake (raw c)) = false
  /\ isnan (LeadHours c) = false
  /\ isnan (CLV_pct c) = false
  /\ LeadHours c = lead_hours (EventTime_dt c) (BetTime_dt c)
  /\ CLV_pct c = clv_pct (ClosingOdds_dec c) (OddsPlaced_dec c).
Proof.
  intros H. apply clean_In in H. destruct H as [r [_ [-> Hna]]].
  apply has_na_false in Hna. simpl in *.
  destruct Hna as [H1 [H2 [H3 [H4 H5]]]].
  repeat split; try assumption; try reflexivity.
  - exact (american_or_decimal_ge_1 _ _ H1).
  - exact (american_or_decimal_ge_1 _ _ H2).
Qed.

End CleanFacts.

Section CleanTheorems.

Variable str_float : float -> string.
Variable dateutil_parse : list ascii -> option Z.

(** C2, as the code has it.  Every record in the output of [clean] has placed
    odds that are finite and at least 1.0, closing odds that are at least 1.0
    (and may be infinite), a stake cell that is not missing, finite lead
    hours and a CLV that is not nan. *)
Theorem C2_cleaned_record_invariant (records : list WagerRecord) (c : CleanedRecord) :
  In c (clean str_float dateutil_parse records) -> kept_invariant c.
Proof.
  intros H. apply clean_kept in H.
  destruct H as [Hp [Hc [Hs [Hl [Hv [El Ev]]]]]].
  unfold kept_invariant.
  rewrite Ev in Hv. destruct (clv_pct_sign _ _ Hp Hc Hv) as [Hf _].
  rewrite El in Hl. apply lead_hours_finite in Hl.
  rewrite Ev, El. auto 10.
Qed.

(** C8.  On every record in the output of [clean], the CLV is positive, zero
    or negative exactly when the closing odds are above, equal to or below
    the placed odds. *)
Theorem C8_clv_sign (records : list WagerRecord) (c : CleanedRecord) :
  In c (clean str_float dateutil_parse records) ->
  (fgtb (CLV_pct c) (Fin 0) = true
     <-> fgtb (ClosingOdds_dec c) (OddsPlaced_dec c) = true)
  /\ (feqb (CLV_pct c) (Fin 0) = true
     <-> feqb (ClosingOdds_dec c) (OddsPlaced_dec c) = true)
  /\ (fltb (CLV_pct c) (Fin 0) = true
     <-> fltb (ClosingOdds_dec c) (OddsPlaced_dec c) = true).
Proof.
  intros H. apply clean_kept in H.
  destruct H as [Hp [Hc [_ [_ [Hv [_ Ev]]]]]].
  rewrite Ev in Hv |- *.
  exact (proj2 (clv_pct_sign _ _ Hp Hc Hv)).
Qed.

End CleanTheorems.

(** C4.  A table that has every required column and no row is a table in
    which cleaning drops every row, and the run does not reach the
    no-valid-rows error on it: line 105 raises before the guard of line 109
    is read. *)
Theorem C4_table_without_rows_raises
    (str_float : float -> string) (dateutil_parse : list ascii -> option Z) :
  let df := mkFrame Sample.all_columns [] in
  missing df = []
  /\ clean str_float dateutil_parse (rows df) = []
  /\ pipeline str_float dateutil_parse df = Raised
  /\ pipeline str_float dateutil_parse df <> NoValidRows.
Proof.
  intros df. split; [reflexivity |]. split; [reflexivity |].
  split; [reflexivity | discriminate].
Qed.

Lemma C2_witness :
  let r := Sample.wager "+110" "+100" (VFloat (Fin 50)) in
  let c := derive Sample.repr_decimal Sample.iso_parse r in
  In c (clean Sample.repr_decimal Sample.iso_parse [r]) /\ kept_invariant c.
Proof.
  intros r c.
  assert (H : In c (clean Sample.repr_decimal Sample.iso_parse [r]))
    by (left; reflexivity).
  split; [exact H |].
  exact (C2_cleaned_record_invariant _ _ _ _ H).
Defined.

(** C2, as stated, fails on two rows that [clean] keeps: placed odds of "+0"
    normalise to exactly 1.0, which is not above 1.0; closing odds of "inf"
    stay infinite and give an infinite CLV, which are not finite. *)
Lemma C2_counterexample :
  let r1 := Sample.wager "+0" "2.0" (VFloat (Fin 50)) in
  let c1 := derive Sample.repr_decimal Sample.iso_parse r1 in
  let r2 := Sample.wager "+110" "inf" (VFloat (Fin 50)) in
  let c2 := derive Sample.repr_decimal Sample.iso_parse r2 in
  (In c1 (clean Sample.repr_decimal Sample.iso_parse [r1])
   /\ feq (OddsPlaced_dec c1) (Fin 1)
   /\ ~ stated_invariant c1)
  /\ (In c2 (clean Sample.repr_decimal Sample.iso_parse [r2])
      /\ ClosingOdds_dec c2 = PInf /\ CLV_pct c2 = PInf
      /\ ~ stated_invariant c2).
Proof.
  intros r1 c1 r2 c2. split.
  - split; [left; reflexivity |].
    split; [vm_compute; reflexivity |].
    intros [H _]. vm_compute in H. discriminate H.
  - split; [left; reflexivity |].
    split; [reflexivity |]. split; [reflexivity |].
    intros [_ [_ [_ [H _]]]]. vm_compute in H. discriminate H.
Qed.

(** C3.  A row whose stake is the text "abc" is not dropped: [dropna] tests
    the raw stake cell for a missing value only, and text is not missing. *)
Lemma C3_text_stake_kept :
  let r := Sample.wager "+110" "+100" (VStr "abc") in
  clean Sample.repr_decimal Sample.iso_parse [r]
  = [derive Sample.repr_decimal Sample.iso_parse r]
  /\ Stake r = VStr "abc".
Proof. split; reflexivity. Qed.

(** A missing stake, in contrast, drops the row. *)
Lemma missing_stake_dropped :
  clean Sample.repr_decimal Sample.iso_parse
        [Sample.wager "+110" "+100" (VFloat NaN)] = [].
Proof. reflexivity. Qed.

Lemma C8_witness :
  let r := Sample.wager "+110" "+100" (VFloat (Fin 50)) in
  let c := derive Sample.repr_decimal Sample.iso_parse r in
  In c (clean Sample.repr_decimal Sample.iso_parse [r])
  /\ (fltb (CLV_pct c) (Fin 0) = true
      <-> fltb (ClosingOdds_dec c) (OddsPlaced_dec c) = true).
Proof.
  intros r c.
  assert (H : In c (clean Sample.repr_decimal Sample.iso_parse [r]))
    by (left; reflexivity).
  split; [exact H |].
  exact (proj2 (proj2 (C8_clv_sign _ _ _ _ H))).
Defined.

(* ------------------------------------------------------------------ *)
(** ** Risk score *)

Lemma clamp01_between (v : float) : between 0 1 (clamp01 v).
Proof.
  unfold clamp01, py_min, py_max, fgtb, between.
  destruct v as [q | | |]; simpl.
  - destruct (Qltb q 1) eqn:E1; simpl.
    + destruct (Qltb 0 q) eqn:E0.
      * apply Qltb_lt in E1, E0. exists q. split; [reflexivity | lra].
      * exists 0. split; [reflexivity | lra].
    + exists 1. split; [reflexivity | lra].
  - exists 1. split; [reflexivity | lra].
  - exists 0. split; [reflexivity | lra].
  - exists 1. split; [reflexivity | lra].
Qed.

Lemma round_half_even_bounds (q : Q) (lo hi : Z) :
  inject_Z lo <= q <= inject_Z hi ->
  (lo <= round_half_even q <= hi)%Z.
Proof.
  intros [Hlo Hhi]. unfold round_half_even.
  pose proof (Qfloor_le q) as Hf.
  pose proof (Qlt_floor q) as Hc.
  assert (Hn : (lo <= Qfloor q)%Z).
  { apply Qfloor_resp_le in Hlo. rewrite Qfloor_Z in Hlo. exact Hlo. }
  assert (Hm : (Qfloor q <= hi)%Z).
  { apply Qfloor_resp_le in Hhi. rewrite Qfloor_Z in Hhi. exact Hhi. }
  assert (Hup : inject_Z (Qfloor q) < q -> (Qfloor q + 1 <= hi)%Z).
  { intros Hlt. assert (Hz : inject_Z (Qfloor q) < inject_Z hi) by lra.
    rewrite <- Zlt_Qlt in Hz. lia. }
  destruct (Qltb (q - inject_Z (Qfloor q)) (1 # 2)) eqn:E1; [lia |].
  apply Qltb_ge in E1.
  assert (Hlt : inject_Z (Qfloor q) < q) by lra.
  specialize (Hup Hlt).
  destruct (Qltb (1 # 2) (q - inject_Z (Qfloor q))); [lia |].
  destruct (Z.even (Qfloor q)); lia.
Qed.

Lemma weighted_sum_between (r : SubRisks) :
  between 0 1 (clv_risk r) -> between 0 1 (posclv_risk r) ->
  between 0 1 (stake_risk r) -> between 0 1 (market_risk r) ->
  between 0 1 (book_risk r) -> between 0 1 (lead_mean_risk r) ->
  between 0 1 (lead_std_risk r) ->
  between 0 100 (fmul (Fin 100) (risk_01 r)).
Proof.
  intros [a [Ea Ha]] [b [Eb Hb]] [c [Ec Hc]] [d [Ed Hd]] [e [Ee He]]
         [f [Ef Hf]] [g [Eg Hg]].
  unfold risk_01. rewrite Ea, Eb, Ec, Ed, Ee, Ef, Eg.
  eexists. split; [reflexivity |]. lra.
Qed.

Lemma sub_risks_between (m : AggregateMetrics) :
  let r := sub_risks m in
  between 0 1 (clv_risk r) /\ between 0 1 (posclv_risk r)
  /\ between 0 1 (stake_risk r) /\ between 0 1 (market_risk r)
  /\ between 0 1 (book_risk r) /\ between 0 1 (lead_mean_risk r)
  /\ between 0 1 (lead_std_risk r).
Proof. simpl. repeat split; apply clamp01_between. Qed.

Lemma round1_between (v : float) : between 0 100 v -> between 0 100 (round1 v).
Proof.
  intros [q [-> Hq]]. simpl.
  eexists. split; [reflexivity |].
  assert (Hb : (0 <= round_half_even (q * 10) <= 1000)%Z).
  { apply round_half_even_bounds. unfold inject_Z. lra. }
  destruct Hb as [H0 H1].
  rewrite Zle_Qle in H0, H1.
  change (inject_Z 0) with 0 in H0. change (inject_Z 1000) with 1000 in H1.
  split.
  - apply Qle_shift_div_l; lra.
  - apply Qle_shift_div_r; lra.
Qed.

(** The seven weights add up to 1. *)
Lemma weights_total :
  Qsum (map (fun p => match snd p with Fin w => w | _ => 0 end) weights) == 1.
Proof. reflexivity. Qed.

(** C5.  For every record of aggregate metrics, the composite score -- 100
    times the weighted sum of the seven clamped sub-risks, with the weights
    0.28, 0.12, 0.16, 0.14, 0.10, 0.10 and 0.10, rounded to one decimal -- is
    a number between 0 and 100, and a whole number of tenths. *)
Theorem C5_risk_score_range (m : AggregateMetrics) :
  between 0 100 (risk_score (sub_risks m))
  /\ (exists k : Z, risk_score (sub_risks m) = Fin (inject_Z k / 10))
  /\ map fst weights
     = ["clv"; "posclv"; "stake"; "market"; "book"; "lead_mean"; "lead_std"]%string
  /\ Forall2 feq (map snd weights)
       [Fin (28 # 100); Fin (12 # 100); Fin (16 # 100); Fin (14 # 100);
        Fin (10 # 100); Fin (10 # 100); Fin (10 # 100)].
Proof.
  assert (Hw : between 0 100 (fmul (Fin 100) (risk_01 (sub_risks m)))).
  { destruct (sub_risks_between m) as [H1 [H2 [H3 [H4 [H5 [H6 H7]]]]]].
    apply weighted_sum_between; assumption. }
  split; [unfold risk_score; apply round1_between; exact Hw |].
  split.
  - unfold risk_score. destruct Hw as [q [-> _]]. simpl.
    eexists. reflexivity.
  - split; [reflexivity |].
    repeat constructor; simpl; reflexivity.
Qed.

(* ------------------------------------------------------------------ *)
(** ** Recommendations *)

Lemma recs_triggered (r : SubRisks) : recs r = triggered r.
Proof.
  unfold recs, triggered, advice_table, append_if. simpl.
  destruct (high (clv_risk r)), (high (posclv_risk r)), (high (stake_risk r)),
    (high (market_risk r)), (high (book_risk r)), (high (lead_mean_risk r)),
    (high (lead_std_risk r)); reflexivity.
Qed.

(** C6.  The list of recommendations holds the advice of each sub-risk that
    is strictly above 0.6, once, in the order clv, posclv, stake, market,
    book, lead mean, lead std; the seven advice texts are distinct; what is
    shown is one bullet per recommendation, or the single neutral message
    when no sub-risk is above 0.6, and never nothing. *)
Theorem C6_recommendations (r : SubRisks) :
  recs r
  = map snd (filter (fun p => fgtb (fst p) (Fin (6 # 10))) (advice_table r))
  /\ NoDup (map snd (advice_table r))
  /\ recommendations r
     = (if existsb (fun p => fgtb (fst p) (Fin (6 # 10))) (advice_table r)
        then map (fun a => Write (bullet a))
                 (map snd (filter (fun p => fgtb (fst p) (Fin (6 # 10)))
                                  (advice_table r)))
        else [Success neutral_message])
  /\ recommendations r <> [].
Proof.
  split; [exact (recs_triggered r) |].
  split.
  { simpl. repeat constructor; simpl; intuition discriminate. }
  unfold recommendations. rewrite recs_triggered.
  unfold triggered, advice_table, high. cbn [filter existsb fst snd].
  destruct (fgtb (clv_risk r) (Fin (6 # 10))),
    (fgtb (posclv_risk r) (Fin (6 # 10))), (fgtb (stake_risk r) (Fin (6 # 10))),
    (fgtb (market_risk r) (Fin (6 # 10))), (fgtb (book_risk r) (Fin (6 # 10))),
    (fgtb (lead_mean_risk r) (Fin (6 # 10))),
    (fgtb (lead_std_risk r) (Fin (6 # 10)));
    simpl; split; solve [reflexivity | discriminate].
Qed.

(* ------------------------------------------------------------------ *)
(** ** Herfindahl index *)

Section HerfindahlFacts.

Variable A : Type.
Variable A_eq_dec : forall x y : A, {x = y} + {x <> y}.


(** The index as one sum over the distinct values. *)
Lemma herfindahl_unfold (series : list A) :
  herfindahl A_eq_dec series
  = let count := fun x => inject_Z (Z.of_nat (count_occ A_eq_dec series x)) in
    let total := Qsum (map count (nodup A_eq_dec series)) in
    Qsum (map (fun x => (count x / total) ^ 2) (nodup A_eq_dec series)).
Proof.
  unfold herfindahl, value_counts. rewrite !map_map. reflexivity.
Qed.





End HerfindahlFacts.




(* ------------------------------------------------------------------ *)
(** * Further properties of the code *)

(** ** The two odds helpers *)

Lemma parse_float_minus (s : list ascii) (v : float) :
  startswith (strip s) "-" = true -> parse_float s = Some v ->
  exists u, parse_unsigned (drop1 (strip s)) = Some u /\ unsigned u /\ v = fneg u.
Proof.
  unfold parse_float. intros Hm.
  assert (Hp : startswith (strip s) "+" = false).
  { destruct (strip s) as [| c t]; [discriminate |]. simpl in *.
    apply Ascii.eqb_eq in Hm. subst c. reflexivity. }
  rewrite Hp, Hm.
  destruct (parse_unsigned (drop1 (strip s))) as [u |] eqn:Eu; [| discriminate].
  simpl. intros H. injection H as <-.
  exists u. split; [reflexivity |].
  split; [exact (parse_unsigned_unsigned _ _ Eu) | reflexivity].
Qed.

(** With text that starts with a minus sign, [american_to_decimal] takes its
    negative branch or returns nan, as the wrapper does. *)
Lemma negated_unsigned_branches (u : float) :
  unsigned u ->
  in_decimal_range (fneg u) = false
  /\ (if fltb (fneg u) (Fin 0) then negative_american (fneg u)
      else if fgeb (fneg u) (Fin 100)
           then positive_american (fneg u) else NaN)
     = negative_american (fneg u).
Proof.
  destruct u as [q | | |]; simpl; intros Hu; try contradiction.
  - split.
    + unfold in_decimal_range. simpl.
      destruct (Qle_bool (101 # 100) (- q)) eqn:E; [| reflexivity].
      apply Qle_bool_iff in E. lra.
    + destruct (Qltb (- q) 0) eqn:E; [reflexivity |].
      apply Qltb_ge in E.
      assert (Hz : Qeqb (- q) 0 = true) by (apply Qeqb_eq; lra).
      assert (Hg : Qle_bool 100 (- q) = false).
      { destruct (Qle_bool 100 (- q)) eqn:Eg; [| reflexivity].
        apply Qle_bool_iff in Eg. lra. }
      unfold negative_american. simpl. rewrite Hz, Hg. reflexivity.
  - split; reflexivity.
  - split; reflexivity.
Qed.

Section OddsMore.

Variable str_float : float -> string.

Lemma american_to_decimal_normalize (x : value) :
  american_to_decimal str_float x = normalize_spec (strip (str str_float x)).
Proof.
  unfold american_to_decimal, normalize_spec.
  set (s := strip (str str_float x)).
  assert (Ht : trimmed s) by apply strip_trimmed.
  destruct (startswith s "-") eqn:Hm.
  - destruct (parse_float s) as [v |] eqn:Ev; [| reflexivity].
    assert (Hm' : startswith (strip s) "-" = true)
      by (rewrite (trimmed_strip _ Ht); exact Hm).
    destruct (parse_float_minus _ _ Hm' Ev) as [u [_ [Hu ->]]].
    destruct (negated_unsigned_branches u Hu) as [Hr Hb].
    rewrite Hr.
    assert (Hp : startswith s "+" = false).
    { destruct s as [| c t]; [discriminate |]. simpl in *.
      apply Ascii.eqb_eq in Hm. subst c. reflexivity. }
    rewrite Hp, <- Hb.
    destruct (fltb (fneg u) (Fin 0)); [apply py_div_abs |].
    destruct (fgeb (fneg u) (Fin 100)); reflexivity.
  - destruct (parse_float s) as [v |] eqn:Ev; [| reflexivity].
    destruct (in_decimal_range v); [reflexivity |].
    destruct (startswith s "+") eqn:Ep.
    + destruct (parse_float_plus _ _ Ht Ep Ev) as [-> _]. reflexivity.
    + destruct (fltb v (Fin 0)); [apply py_div_abs |].
      destruct (fgeb v (Fin 100)); reflexivity.
Qed.

(** X1.  The wrapper changes nothing: on every cell [american_or_decimal] returns
    what [american_to_decimal] returns on the same cell. *)
Theorem X1_wrapper_agrees (x : value) :
  american_or_decimal str_float x = american_to_decimal str_float x.
Proof.
  rewrite american_or_decimal_spec, american_to_decimal_normalize. reflexivity.
Qed.

End OddsMore.

(** ** White space around a cell *)

Lemma lstrip_spaces (ws l : list ascii) :
  forallb isspace ws = true -> lstrip (app ws l) = lstrip l.
Proof.
  induction ws as [| c t IH]; simpl; [reflexivity |].
  intros H. apply andb_true_iff in H. destruct H as [Hc Ht].
  rewrite Hc. exact (IH Ht).
Qed.

Lemma forallb_rev (f : ascii -> bool) (l : list ascii) :
  forallb f (rev l) = forallb f l.
Proof.
  induction l as [| c t IH]; simpl; [reflexivity |].
  rewrite forallb_app, IH. simpl. rewrite andb_true_r. apply andb_comm.
Qed.

Lemma rstrip_spaces (l ws : list ascii) :
  forallb isspace ws = true -> rstrip (app l ws) = rstrip l.
Proof.
  intros H. unfold rstrip. rewrite rev_app_distr.
  rewrite lstrip_spaces by (rewrite forallb_rev; exact H). reflexivity.
Qed.

Lemma lstrip_all_spaces (l : list ascii) :
  forallb isspace l = true -> lstrip l = [].
Proof.
  intros H. rewrite <- (app_nil_r l). rewrite lstrip_spaces by exact H.
  reflexivity.
Qed.

Lemma lstrip_app_tail (l ws : list ascii) :
  forallb isspace ws = true ->
  rstrip (lstrip (app l ws)) = rstrip (lstrip l).
Proof.
  intros H. induction l as [| c t IH]; simpl.
  - rewrite (lstrip_all_spaces ws H). reflexivity.
  - destruct (isspace c); [exact IH |].
    change (c :: app t ws) with (app (c :: t) ws).
    apply rstrip_spaces. exact H.
Qed.

Lemma strip_padding (ws1 l ws2 : list ascii) :
  forallb isspace ws1 = true -> forallb isspace ws2 = true ->
  strip (app ws1 (app l ws2)) = strip l.
Proof.
  intros H1 H2. unfold strip.
  rewrite (lstrip_spaces ws1 _ H1). apply lstrip_app_tail. exact H2.
Qed.

Lemma chars_append (a b : string) :
  chars (String.append a b) = app (chars a) (chars b).
Proof.
  induction a as [| c a IH]; simpl; [reflexivity |].
  unfold chars in *. simpl. f_equal. exact IH.
Qed.

(** X2.  White space around the text of a cell does not change its decimal odds:
    a cell padded on either side normalises as the bare cell does. *)
Theorem X2_padding_ignored (str_float : float -> string) (w1 s w2 : string) :
  forallb isspace (chars w1) = true ->
  forallb isspace (chars w2) = true ->
  american_or_decimal str_float (VStr (String.append w1 (String.append s w2)))
  = american_or_decimal str_float (VStr s).
Proof.
  intros H1 H2. rewrite !american_or_decimal_spec. simpl str.
  rewrite !chars_append, (strip_padding _ _ _ H1 H2). reflexivity.
Qed.

Lemma X2_witness :
  forallb isspace (chars "  ") = true
  /\ forallb isspace (chars " ") = true
  /\ american_or_decimal Sample.repr_decimal (VStr "  +110 ")
     = american_or_decimal Sample.repr_decimal (VStr "+110").
Proof.
  assert (H1 : forallb isspace (chars "  ") = true) by reflexivity.
  assert (H2 : forallb isspace (chars " ") = true) by reflexivity.
  split; [exact H1 |]. split; [exact H2 |].
  exact (X2_padding_ignored Sample.repr_decimal "  " "+110" " " H1 H2).
Defined.

(** ** What a sign in front of a numeral does *)

Lemma trimmed_of_strip (l : list ascii) : strip l = l -> trimmed l.
Proof. intros H. rewrite <- H. apply strip_trimmed. Qed.

(** A sign in front of trimmed text that starts a numeral keeps it trimmed. *)
Lemma trimmed_signed (c d : ascii) (t : list ascii) :
  isspace c = false -> trimmed (d :: t) -> trimmed (c :: d :: t).
Proof.
  intros Hc [_ H2]. split; [apply lstrip_fixed; exact Hc |].
  change (rev (c :: d :: t)) with (app (rev (d :: t)) [c]).
  destruct (rev (d :: t)) as [| e u] eqn:Er.
  - apply (f_equal (@List.length ascii)) in Er.
    rewrite length_rev in Er. discriminate.
  - simpl. rewrite (lstrip_fixed_head _ _ H2). reflexivity.
Qed.

(** How [float()] reads a numeral [t] bare, and behind a sign. *)
Lemma parse_float_signed (t : list ascii) (u : float) :
  strip t = t -> parse_unsigned t = Some u ->
  parse_float t = Some u
  /\ startswith t "-" = false /\ startswith t "+" = false
  /\ strip ("+"%char :: t) = "+"%char :: t
  /\ parse_float ("+"%char :: t) = Some u
  /\ strip ("-"%char :: t) = "-"%char :: t
  /\ parse_float ("-"%char :: t) = Some (fneg u).
Proof.
  intros Hs Hu.
  destruct t as [| d t']; [rewrite parse_unsigned_nil in Hu; discriminate |].
  pose proof (parse_unsigned_head _ _ _ Hu) as Hd.
  unfold sign_or_space in Hd.
  apply orb_false_iff in Hd. destruct Hd as [Hd Hm].
  apply orb_false_iff in Hd. destruct Hd as [_ Hp].
  pose proof (trimmed_of_strip _ Hs) as Ht.
  assert (Sp : strip ("+"%char :: d :: t') = "+"%char :: d :: t')
    by (apply trimmed_strip, trimmed_signed; [reflexivity | exact Ht]).
  assert (Sm : strip ("-"%char :: d :: t') = "-"%char :: d :: t')
    by (apply trimmed_strip, trimmed_signed; [reflexivity | exact Ht]).
  unfold parse_float. rewrite Hs, Sp, Sm. simpl startswith. simpl drop1.
  rewrite Hp, Hm, Hu. simpl. repeat split; reflexivity.
Qed.



Section SignedNumerals.

Variable str_float : float -> string.

(** X3.  An explicit plus sign matters only below 1.01.  For a numeral [t] of
    value [v]: when [v >= 1.01], "+t" and "t" normalise to the same odds;
    when [v < 1.01], "t" is invalid while "+t" gives [1 + v/100]. *)
Theorem X3_plus_sign (t : string) (v : Q) :
  strip (chars t) = chars t ->
  parse_unsigned (chars t) = Some (Fin v) ->
  (101 # 100 <= v ->
   american_or_decimal str_float (VStr (String "+" t))
   = american_or_decimal str_float (VStr t))
  /\ (v < 101 # 100 ->
      american_or_decimal str_float (VStr t) = NaN
      /\ american_or_decimal str_float (VStr (String "+" t)) = Fin (1 + v / 100)).
Proof.
  intros Hs Hu.
  destruct (parse_float_signed _ _ Hs Hu) as [Pb [Nm [Np [Sp [Pp _]]]]].
  pose proof (parse_unsigned_unsigned _ _ Hu) as Hv. simpl in Hv.
  rewrite !american_or_decimal_spec. simpl str.
  change (chars (String "+" t)) with ("+"%char :: chars t).
  rewrite Sp, Hs. unfold normalize_spec.
  rewrite Nm, Np, Pb, Pp. simpl startswith.
  unfold in_decimal_range. simpl.
  split.
  - intros Hge.
    assert (E1 : Qle_bool (101 # 100) v = true) by (apply Qle_bool_iff; exact Hge).
    rewrite E1. simpl.
    destruct (Qle_bool v 100) eqn:E2; [reflexivity |].
    assert (E3 : Qltb v 0 = false) by (apply Qltb_ge; exact Hv).
    assert (E4 : Qle_bool 100 v = true).
    { apply Qle_bool_iff. destruct (Qlt_le_dec 100 v) as [H | H]; [lra |].
      apply Qle_bool_iff in H. congruence. }
    rewrite E3, E4. reflexivity.
  - intros Hlt.
    assert (E1 : Qle_bool (101 # 100) v = false).
    { destruct (Qle_bool (101 # 100) v) eqn:E; [| reflexivity].
      apply Qle_bool_iff in E. lra. }
    assert (E3 : Qltb v 0 = false) by (apply Qltb_ge; exact Hv).
    assert (E4 : Qle_bool 100 v = false).
    { destruct (Qle_bool 100 v) eqn:E; [| reflexivity].
      apply Qle_bool_iff in E. lra. }
    rewrite E1, E3, E4. simpl. split; reflexivity.
Qed.


End SignedNumerals.

Lemma X3_witness :
  strip (chars "0.5") = chars "0.5"
  /\ parse_unsigned (chars "0.5") = Some (Fin (5 * / 10))
  /\ american_or_decimal Sample.repr_decimal (VStr "0.5") = NaN
  /\ american_or_decimal Sample.repr_decimal (VStr "+0.5")
     = Fin (1 + (5 * / 10) / 100).
Proof.
  assert (H1 : strip (chars "0.5") = chars "0.5") by reflexivity.
  assert (H2 : parse_unsigned (chars "0.5") = Some (Fin (5 * / 10)))
    by reflexivity.
  split; [exact H1 |]. split; [exact H2 |].
  apply (proj2 (X3_plus_sign Sample.repr_decimal "0.5" _ H1 H2)).
  reflexivity.
Defined.


(** ** Which rows cleaning keeps *)

Lemma clv_pct_defined (closing placed : float) :
  fleb (Fin 1) placed = true -> isfinite placed = true ->
  fleb (Fin 1) closing = true ->
  isnan (clv_pct closing placed) = false
  /\ fltb (Fin (- (100))) (clv_pct closing placed) = true.
Proof.
  unfold clv_pct.
  destruct placed as [p | | |], closing as [q | | |]; simpl;
    try discriminate; intros Hp _ Hq.
  - apply Qle_bool_iff in Hp. apply Qle_bool_iff in Hq.
    assert (Hp0 : Qeqb p 0 = false) by (apply Qeqb_neq; lra).
    rewrite Hp0. simpl. split; [reflexivity |].
    apply Qltb_lt.
    assert (Hd : 0 < / p) by (apply Qinv_lt_0_compat; lra).
    assert (Hs : (q + - p) / p * 100 == q * / p * 100 - 100).
    { unfold Qdiv. field. lra. }
    rewrite Hs.
    assert (0 < q * / p) by (apply Qmult_lt_0_compat; lra). lra.
  - apply Qle_bool_iff in Hp.
    assert (Hp0 : Qle_bool 0 p = true) by (apply Qle_bool_iff; lra).
    rewrite Hp0. simpl. split; reflexivity.
Qed.

Lemma fltb_fleb (a b : float) : fltb a b = true -> fleb a b = true.
Proof.
  destruct a as [x | | |], b as [y | | |]; try discriminate; try reflexivity.
  intros H. apply fltb_Fin in H. apply fleb_Fin. lra.
Qed.

Section CleanMore.

Variable str_float : float -> string.
Variable dateutil_parse : list ascii -> option Z.

(** The test of [dropna] on a derived row, in terms of the raw cells: the
    row is kept exactly when the placed odds normalise to a finite number,
    the closing odds normalise to a number, the stake cell is not missing and
    both timestamps parse. *)
Lemma kept_iff (r : WagerRecord) :
  has_na (derive str_float dateutil_parse r) = false <->
  isfinite (american_or_decimal str_float (OddsPlaced r)) = true
  /\ isnan (american_or_decimal str_float (ClosingOdds r)) = false
  /\ isna (Stake r) = false
  /\ parse_dt str_float dateutil_parse (BetTime r) <> None
  /\ parse_dt str_float dateutil_parse (EventTime r) <> None.
Proof.
  split.
  - intros H. apply has_na_false in H. simpl in H.
    destruct H as [Hp [Hc [Hs [Hl Hv]]]].
    pose proof (american_or_decimal_ge_1 _ _ Hp) as Gp.
    pose proof (american_or_decimal_ge_1 _ _ Hc) as Gc.
    destruct (clv_pct_sign _ _ Gp Gc Hv) as [Hf _].
    repeat split; try assumption.
    + intros E. rewrite E in Hl.
      destruct (parse_dt str_float dateutil_parse (EventTime r)); discriminate.
    + intros E. rewrite E in Hl. discriminate.
  - intros [Hf [Hc [Hs [Hb He]]]].
    assert (Hp : isnan (american_or_decimal str_float (OddsPlaced r)) = false)
      by (destruct (american_or_decimal str_float (OddsPlaced r));
          try discriminate; reflexivity).
    pose proof (american_or_decimal_ge_1 _ _ Hp) as Gp.
    pose proof (american_or_decimal_ge_1 _ _ Hc) as Gc.
    destruct (clv_pct_defined _ _ Gp Hf Gc) as [Hv _].
    unfold has_na. simpl. rewrite Hp, Hc, Hs, Hv. simpl.
    destruct (parse_dt str_float dateutil_parse (EventTime r)); [| contradiction].
    destruct (parse_dt str_float dateutil_parse (BetTime r)); [| contradiction].
    reflexivity.
Qed.

(** X5.  A row of the input is in the output of [clean], with its derived
    columns, exactly when its placed odds normalise to a finite number, its
    closing odds normalise to a number, its stake cell is not missing and
    both of its timestamps parse. *)
Theorem X5_drop_rule (records : list WagerRecord) (r : WagerRecord) :
  In r records ->
  (In (derive str_float dateutil_parse r) (clean str_float dateutil_parse records)
   <->
   isfinite (american_or_decimal str_float (OddsPlaced r)) = true
   /\ isnan (american_or_decimal str_float (ClosingOdds r)) = false
   /\ isna (Stake r) = false
   /\ parse_dt str_float dateutil_parse (BetTime r) <> None
   /\ parse_dt str_float dateutil_parse (EventTime r) <> None).
Proof.
  intros Hin. rewrite <- kept_iff, clean_In. split.
  - intros [r' [_ [E H]]]. exact H.
  - intros H. exists r. auto.
Qed.

(** X7.  The CLV of a kept row is never below -100 per cent. *)
Theorem X7_clv_at_least_minus_100 (records : list WagerRecord) (c : CleanedRecord) :
  In c (clean str_float dateutil_parse records) ->
  fleb (Fin (- (100))) (CLV_pct c) = true.
Proof.
  intros H. pose proof (K := clean_kept _ _ _ _ H).
  destruct K as [Hp [Hc [_ [_ [Hv [_ Ev]]]]]].
  rewrite Ev in Hv |- *.
  destruct (clv_pct_sign _ _ Hp Hc Hv) as [Hf _].
  apply fltb_fleb. exact (proj2 (clv_pct_defined _ _ Hp Hf Hc)).
Qed.

(** X8.  Both timestamps of a kept row parsed; its lead time is the difference
    event minus bet in hours, and it is negative exactly when the event is
    before the bet: such rows are kept. *)
Theorem X8_lead_hours (records : list WagerRecord) (c : CleanedRecord) :
  In c (clean str_float dateutil_parse records) ->
  exists e b : Z,
    EventTime_dt c = Some e /\ BetTime_dt c = Some b
    /\ feq (LeadHours c) (Fin (inject_Z (e - b) / 3600000000))
    /\ (fltb (LeadHours c) (Fin 0) = true <-> (e < b)%Z).
Proof.
  intros H. pose proof (K := clean_kept _ _ _ _ H).
  destruct K as [_ [_ [_ [Hl [_ [El _]]]]]].
  rewrite El in Hl |- *.
  destruct (EventTime_dt c) as [e |]; [| discriminate].
  destruct (BetTime_dt c) as [b |]; [| discriminate].
  exists e, b. split; [reflexivity |]. split; [reflexivity |].
  unfold lead_hours, np_div.
  change (Qeqb 1000000 0) with false. change (Qeqb 3600 0) with false.
  cbv iota. split.
  - unfold feq. field.
  - rewrite fltb_Fin.
    assert (Hs : inject_Z (e - b) / 1000000 / 3600
                 == inject_Z (e - b) * (1 # 3600000000)) by field.
    rewrite Hs. split; intros Hlt.
    + assert (Hz : inject_Z (e - b) < inject_Z 0) by (unfold inject_Z at 2; lra).
      rewrite <- Zlt_Qlt in Hz. lia.
    + assert (Hz : inject_Z (e - b) < inject_Z 0) by (rewrite <- Zlt_Qlt; lia).
      unfold inject_Z at 2 in Hz. lra.
Qed.

End CleanMore.

Lemma X5_witness :
  let r := Sample.wager "-120" "-115" (VFloat (Fin 55)) in
  In r [r]
  /\ In (derive Sample.repr_decimal Sample.iso_parse r)
        (clean Sample.repr_decimal Sample.iso_parse [r]).
Proof.
  intros r.
  assert (H : In r [r]) by (left; reflexivity).
  split; [exact H |].
  apply (proj2 (X5_drop_rule Sample.repr_decimal Sample.iso_parse [r] r H)).
  repeat split; try reflexivity; discriminate.
Defined.

Lemma X7_witness :
  let r := Sample.wager "+400" "1.02" (VFloat (Fin 50)) in
  let c := derive Sample.repr_decimal Sample.iso_parse r in
  In c (clean Sample.repr_decimal Sample.iso_parse [r])
  /\ fleb (Fin (- (100))) (CLV_pct c) = true.
Proof.
  intros r c.
  assert (H : In c (clean Sample.repr_decimal Sample.iso_parse [r]))
    by (left; reflexivity).
  split; [exact H |].
  exact (X7_clv_at_least_minus_100 _ _ _ _ H).
Defined.

Lemma X8_witness :
  let r := mkWager (VStr "Bet99") (VStr "NHL") (VStr "Moneyline")
             (VStr "-120") (VStr "-115") (VFloat (Fin 55))
             (VStr "2025-10-10 21:00:00") (VStr "2025-10-10 20:00:00")
             (VStr "L") in
  let c := derive Sample.repr_decimal Sample.iso_parse r in
  In c (clean Sample.repr_decimal Sample.iso_parse [r])
  /\ fltb (LeadHours c) (Fin 0) = true
  /\ exists e b : Z,
       EventTime_dt c = Some e /\ BetTime_dt c = Some b
       /\ feq (LeadHours c) (Fin (inject_Z (e - b) / 3600000000))
       /\ (fltb (LeadHours c) (Fin 0) = true <-> (e < b)%Z).
Proof.
  intros r c.
  assert (H : In c (clean Sample.repr_decimal Sample.iso_parse [r]))
    by (left; reflexivity).
  split; [exact H |]. split; [reflexivity |].
  exact (X8_lead_hours _ _ _ _ H).
Defined.

(** ** The guards of the run *)

Section PipelineMore.

Variable str_float : float -> string.
Variable dateutil_parse : list ascii -> option Z.

Lemma missing_In (df : DataFrame) (c : string) :
  In c (missing df) <-> In c required /\ ~ In c (columns df).
Proof.
  unfold missing. rewrite filter_In, negb_true_iff. split.
  - intros [Hr He]. split; [exact Hr |]. intros Hin.
    assert (Hex : existsb (String.eqb c) (columns df) = true).
    { apply existsb_exists. exists c. split; [exact Hin | apply String.eqb_refl]. }
    congruence.
  - intros [Hr Hn]. split; [exact Hr |].
    destruct (existsb (String.eqb c) (columns df)) eqn:E; [| reflexivity].
    apply existsb_exists in E. destruct E as [x [Hx Heq]].
    apply String.eqb_eq in Heq. subst x. contradiction.
Qed.

(** X9.  The structural check reports exactly the required columns that the
    table lacks, whatever its rows, its other columns and their order;
    [Result] is never asked for; and when a required column is absent the
    run stops there, before any row is cleaned. *)
Theorem X9_missing_columns (df : DataFrame) :
  (forall c, In c (missing df) <-> In c required /\ ~ In c (columns df))
  /\ ~ In "Result"%string (missing df)
  /\ (missing df = [] <-> forall c, In c required -> In c (columns df))
  /\ (forall c, In c required -> ~ In c (columns df) ->
      pipeline str_float dateutil_parse df = MissingColumns (missing df)).
Proof.
  split; [apply missing_In |].
  split.
  { intros H. apply missing_In in H. destruct H as [H _].
    simpl in H. intuition discriminate. }
  split.
  - split.
    + intros Hm c Hr.
      destruct (in_dec string_dec c (columns df)) as [Hin | Hn]; [exact Hin |].
      assert (Hc : In c (missing df)) by (apply missing_In; auto).
      rewrite Hm in Hc. contradiction.
    + intros Hall. destruct (missing df) as [| c t] eqn:E; [reflexivity |].
      assert (Hc : In c (missing df)) by (rewrite E; left; reflexivity).
      apply missing_In in Hc. destruct Hc as [Hr Hn].
      exfalso. apply Hn, Hall, Hr.
  - intros c Hr Hn.
    assert (Hc : In c (missing df)) by (apply missing_In; auto).
    unfold pipeline. destruct (missing df) as [| x t]; [contradiction |].
    reflexivity.
Qed.

(** X10.  What the metrics can rely on: when the run reaches them, every required
    column is present, the frame they get is the cleaned table, it is not
    empty, and each of its rows has placed odds finite and at least 1.0,
    closing odds at least 1.0, a stake that is not missing, finite lead hours
    and a CLV that is not nan. *)
Theorem X10_frame_for_metrics (df : DataFrame) (d : list CleanedRecord) :
  pipeline str_float dateutil_parse df = ToMetrics d ->
  (forall c, In c required -> In c (columns df))
  /\ d = clean str_float dateutil_parse (rows df)
  /\ d <> []
  /\ Forall kept_invariant d.
Proof.
  unfold pipeline. intros H.
  destruct (missing df) as [| x t] eqn:Em; [| discriminate].
  destruct (dt_accessor_raises (rows df)); [discriminate |].
  destruct (clean str_float dateutil_parse (rows df)) as [| c0 t0] eqn:Ec;
    [discriminate |].
  injection H as <-.
  split.
  { intros c Hr.
    destruct (in_dec string_dec c (columns df)) as [Hin | Hn]; [exact Hin |].
    assert (Hc : In c (missing df)) by (apply missing_In; auto).
    rewrite Em in Hc. contradiction. }
  split; [reflexivity |]. split; [discriminate |].
  apply Forall_forall. intros c Hc. rewrite <- Ec in Hc.
  apply clean_kept in Hc.
  destruct Hc as [Hp [Hcl [Hs [Hl [Hv [El Ev]]]]]].
  unfold kept_invariant.
  rewrite Ev in Hv. destruct (clv_pct_sign _ _ Hp Hcl Hv) as [Hf _].
  rewrite El in Hl. apply lead_hours_finite in Hl.
  rewrite Ev, El. auto 10.
Qed.

End PipelineMore.

Lemma X10_witness :
  let r := Sample.wager "+110" "+100" (VFloat (Fin 50)) in
  let df := mkFrame Sample.all_columns [r; Sample.wager "abc" "2" (VFloat (Fin 5))] in
  let d := [derive Sample.repr_decimal Sample.iso_parse r] in
  pipeline Sample.repr_decimal Sample.iso_parse df = ToMetrics d
  /\ d <> [] /\ Forall kept_invariant d.
Proof.
  intros r df d.
  assert (H : pipeline Sample.repr_decimal Sample.iso_parse df = ToMetrics d)
    by reflexivity.
  split; [exact H |].
  exact (proj2 (proj2 (X10_frame_for_metrics _ _ _ _ H))).
Defined.

Lemma X9_witness :
  let df := mkFrame ["Book"; "Stake"; "Result"]%string [] in
  In "Sport"%string required /\ ~ In "Sport"%string (columns df)
  /\ pipeline Sample.repr_decimal Sample.iso_parse df
     = MissingColumns ["Sport"; "MarketType"; "OddsPlaced"; "ClosingOdds";
                       "BetTime"; "EventTime"]%string.
Proof.
  intros df.
  assert (H1 : In "Sport"%string required) by (right; left; reflexivity).
  assert (H2 : ~ In "Sport"%string (columns df))
    by (simpl; intuition discriminate).
  split; [exact H1 |]. split; [exact H2 |].
  exact (proj2 (proj2 (proj2
           (X9_missing_columns Sample.repr_decimal Sample.iso_parse df)))
           _ H1 H2).
Defined.

(** ** The metrics that are means *)

Lemma filter_true_map {A : Type} (f : A -> bool) (l : list A) :
  List.length (filter (fun b : bool => b) (map f l)) = List.length (filter f l).
Proof.
  induction l as [| a t IH]; simpl; [reflexivity |].
  destruct (f a); simpl; rewrite IH; reflexivity.
Qed.

Lemma filter_all {A : Type} (f : A -> bool) (l : list A) :
  (forall x, In x l -> f x = true) -> filter f l = l.
Proof.
  induction l as [| a t IH]; simpl; intros H; [reflexivity |].
  rewrite (H a) by (left; reflexivity). f_equal.
  apply IH. intros x Hx. apply H. right. exact Hx.
Qed.

Lemma inject_nat_pos {A : Type} (l : list A) :
  l <> [] -> 0 < inject_Z (Z.of_nat (List.length l)).
Proof.
  intros H. destruct l as [| a t]; [contradiction |].
  change 0 with (inject_Z 0). rewrite <- Zlt_Qlt. simpl List.length. lia.
Qed.

Lemma bool_mean_share (l : list bool) :
  l <> [] ->
  exists q,
    bool_mean l = Fin q /\ 0 <= q <= 1
    /\ q == inject_Z (Z.of_nat (List.length (filter (fun b : bool => b) l)))
            / inject_Z (Z.of_nat (List.length l)).
Proof.
  intros Hne. pose proof (inject_nat_pos l Hne) as Hn.
  unfold bool_mean, np_div.
  assert (E : Qeqb (inject_Z (Z.of_nat (List.length l))) 0 = false)
    by (apply Qeqb_neq; lra).
  rewrite E. eexists. split; [reflexivity |]. split; [| reflexivity].
  assert (Hk : inject_Z (Z.of_nat (List.length (filter (fun b : bool => b) l)))
               <= inject_Z (Z.of_nat (List.length l))).
  { rewrite <- Zle_Qle. apply Nat2Z.inj_le. apply filter_length_le. }
  assert (H0 : 0 <= inject_Z (Z.of_nat (List.length (filter (fun b : bool => b) l)))).
  { change 0 with (inject_Z 0). rewrite <- Zle_Qle. lia. }
  split.
  - apply Qle_shift_div_l; lra.
  - apply Qle_shift_div_r; lra.
Qed.

Lemma fold_fadd_above (xs : list float) :
  (forall x, In x xs -> fltb (Fin (- (100))) x = true) ->
  forall (a : float) (lo : Q),
    sum_above lo a ->
    sum_above (lo - 100 * inject_Z (Z.of_nat (List.length xs)))
              (fold_left fadd xs a).
Proof.
  induction xs as [| x t IH]; intros Hall a lo Ha.
  - simpl. destruct Ha as [-> | [q [-> Hq]]]; [left; reflexivity |].
    right. exists q. split; [reflexivity |]. unfold inject_Z. lra.
  - simpl fold_left.
    assert (Hx : fltb (Fin (- (100))) x = true) by (apply Hall; left; reflexivity).
    assert (Hstep : sum_above (lo - 100) (fadd a x)).
    { destruct Ha as [-> | [q [-> Hq]]].
      - destruct x; try discriminate; left; reflexivity.
      - destruct x as [y | | |]; try discriminate.
        + apply fltb_Fin in Hx. right. exists (q + y).
          split; [reflexivity | lra].
        + left. reflexivity. }
    specialize (IH (fun y Hy => Hall y (or_intror Hy)) _ _ Hstep).
    destruct IH as [-> | [s [-> Hs]]]; [left; reflexivity |].
    right. exists s. split; [reflexivity |].
    change (List.length (x :: t)) with (S (List.length t)).
    rewrite Nat2Z.inj_succ. unfold Z.succ. rewrite inject_Z_plus.
    change (inject_Z 1) with 1. lra.
Qed.

Lemma series_mean_above (l : list float) :
  l <> [] ->
  (forall x, In x l -> fltb (Fin (- (100))) x = true) ->
  fltb (Fin (- (100))) (series_mean l) = true.
Proof.
  intros Hne Hall. unfold series_mean.
  rewrite (filter_all (fun x => negb (isnan x)) l).
  2:{ intros x Hx. specialize (Hall x Hx). destruct x; try discriminate; reflexivity. }
  pose proof (inject_nat_pos l Hne) as Hn.
  assert (Hs : sum_above (- (100) * inject_Z (Z.of_nat (List.length l)))
                         (fold_left fadd l (Fin 0))).
  { destruct l as [| x t]; [contradiction |].
    change (fold_left fadd (x :: t) (Fin 0))
      with (fold_left fadd t (fadd (Fin 0) x)).
    assert (Hx : fltb (Fin (- (100))) x = true) by (apply Hall; left; reflexivity).
    assert (H1 : sum_above (- (100)) (fadd (Fin 0) x)).
    { destruct x as [y | | |]; try discriminate.
      - apply fltb_Fin in Hx. right. exists (0 + y). split; [reflexivity | lra].
      - left. reflexivity. }
    pose proof (fold_fadd_above t (fun y Hy => Hall y (or_intror Hy)) _ _ H1) as H2.
    destruct H2 as [-> | [s [-> Hs]]]; [left; reflexivity |].
    right. exists s. split; [reflexivity |].
    change (List.length (x :: t)) with (S (List.length t)).
    rewrite Nat2Z.inj_succ. unfold Z.succ. rewrite inject_Z_plus.
    change (inject_Z 1) with 1. lra. }
  destruct Hs as [-> | [s [-> Hs]]].
  - simpl.
    assert (E : Qle_bool 0 (inject_Z (Z.of_nat (List.length l))) = true)
      by (apply Qle_bool_iff; lra).
    rewrite E. reflexivity.
  - unfold np_div.
    assert (E : Qeqb (inject_Z (Z.of_nat (List.length l))) 0 = false)
      by (apply Qeqb_neq; lra).
    rewrite E. apply fltb_Fin.
    apply Qlt_shift_div_l; [exact Hn | exact Hs].
Qed.

Lemma fold_fadd_finite (xs : list float) :
  (forall x, In x xs -> isfinite x = true) ->
  forall q, exists s, fold_left fadd xs (Fin q) = Fin s.
Proof.
  induction xs as [| x t IH]; intros Hall q.
  - exists q. reflexivity.
  - simpl fold_left.
    assert (Hx : isfinite x = true) by (apply Hall; left; reflexivity).
    destruct x as [y | | |]; try discriminate.
    apply IH. intros z Hz. apply Hall. right. exact Hz.
Qed.

Lemma series_mean_finite (l : list float) :
  l <> [] ->
  (forall x, In x l -> isfinite x = true) ->
  isfinite (series_mean l) = true.
Proof.
  intros Hne Hall. unfold series_mean.
  rewrite (filter_all (fun x => negb (isnan x)) l).
  2:{ intros x Hx. specialize (Hall x Hx). destruct x; try discriminate; reflexivity. }
  pose proof (inject_nat_pos l Hne) as Hn.
  destruct (fold_fadd_finite l Hall 0) as [s ->].
  unfold np_div.
  assert (E : Qeqb (inject_Z (Z.of_nat (List.length l))) 0 = false)
    by (apply Qeqb_neq; lra).
  rewrite E. reflexivity.
Qed.

Section MetricsMore.

Variable str_float : float -> string.
Variable dateutil_parse : list ascii -> option Z.

(** X11.  On a cleaned table that is not empty, the rate of bets beating the close
    is a number between 0 and 1: the share of the rows whose closing odds
    are above the placed odds. *)
Theorem X11_pos_clv_rate (records : list WagerRecord) :
  clean str_float dateutil_parse records <> [] ->
  exists q,
    pos_clv_rate_of (clean str_float dateutil_parse records) = Fin q
    /\ 0 <= q <= 1
    /\ q == inject_Z (Z.of_nat (List.length
               (filter (fun c => fgtb (ClosingOdds_dec c) (OddsPlaced_dec c))
                       (clean str_float dateutil_parse records))))
            / inject_Z (Z.of_nat
               (List.length (clean str_float dateutil_parse records))).
Proof.
  intros Hne. unfold pos_clv_rate_of.
  set (d := clean str_float dateutil_parse records) in *.
  assert (Hm : map (fun c => fgtb (CLV_pct c) (Fin 0)) d <> []).
  { destruct d; [contradiction | discriminate]. }
  destruct (bool_mean_share _ Hm) as [q [Eq [Hq Hv]]].
  exists q. split; [exact Eq |]. split; [exact Hq |].
  rewrite Hv, filter_true_map, length_map.
  rewrite (filter_ext_in (fun c => fgtb (CLV_pct c) (Fin 0))
             (fun c => fgtb (ClosingOdds_dec c) (OddsPlaced_dec c)) d).
  - reflexivity.
  - intros c Hc. pose proof (K := clean_kept _ _ _ _ Hc).
    destruct K as [Hp [Hcl [_ [_ [Hnv [_ Ev]]]]]].
    rewrite Ev in Hnv |- *.
    destruct (clv_pct_sign _ _ Hp Hcl Hnv) as [_ [Hgt _]].
    destruct (fgtb (clv_pct (ClosingOdds_dec c) (OddsPlaced_dec c)) (Fin 0));
      destruct (fgtb (ClosingOdds_dec c) (OddsPlaced_dec c));
      try reflexivity; destruct Hgt as [H1 H2];
      [symmetry; apply H1; reflexivity | apply H2; reflexivity].
Qed.

(** X12.  On a cleaned table that is not empty, the average CLV is a number
    not below -100 (possibly infinite, never nan), and the mean lead time is
    finite. *)
Theorem X12_means_defined (records : list WagerRecord) :
  clean str_float dateutil_parse records <> [] ->
  fleb (Fin (- (100))) (avg_clv_of (clean str_float dateutil_parse records)) = true
  /\ isfinite (lead_mean_of (clean str_float dateutil_parse records)) = true.
Proof.
  intros Hne.
  set (d := clean str_float dateutil_parse records) in *.
  split.
  - apply fltb_fleb. apply series_mean_above.
    + destruct d; [contradiction | discriminate].
    + intros x Hx. apply in_map_iff in Hx. destruct Hx as [c [<- Hc]].
      pose proof (K := clean_kept _ _ _ _ Hc).
      destruct K as [Hp [Hcl [_ [_ [Hnv [_ Ev]]]]]].
      rewrite Ev in Hnv |- *.
      destruct (clv_pct_sign _ _ Hp Hcl Hnv) as [Hf _].
      exact (proj2 (clv_pct_defined _ _ Hp Hf Hcl)).
  - apply series_mean_finite.
    + destruct d; [contradiction | discriminate].
    + intros x Hx. apply in_map_iff in Hx. destruct Hx as [c [<- Hc]].
      pose proof (K := clean_kept _ _ _ _ Hc).
      destruct K as [_ [_ [_ [Hl [_ [El _]]]]]].
      rewrite El in Hl |- *. exact (lead_hours_finite _ _ Hl).
Qed.

End MetricsMore.

Lemma X11_witness :
  let records := [Sample.wager "+110" "+100" (VFloat (Fin 50));
                  Sample.wager "1.91" "1.95" (VFloat (Fin 60))] in
  clean Sample.repr_decimal Sample.iso_parse records <> []
  /\ exists q,
       pos_clv_rate_of (clean Sample.repr_decimal Sample.iso_parse records) = Fin q
       /\ 0 <= q <= 1.
Proof.
  intros records.
  assert (H : clean Sample.repr_decimal Sample.iso_parse records <> [])
    by discriminate.
  split; [exact H |].
  destruct (X11_pos_clv_rate Sample.repr_decimal Sample.iso_parse records H)
    as [q [E [Hq _]]].
  exists q. split; [exact E | exact Hq].
Defined.

Lemma X12_witness :
  let records := [Sample.wager "+110" "+100" (VFloat (Fin 50));
                  Sample.wager "1.91" "inf" (VFloat (Fin 60))] in
  clean Sample.repr_decimal Sample.iso_parse records <> []
  /\ fleb (Fin (- (100)))
          (avg_clv_of (clean Sample.repr_decimal Sample.iso_parse records)) = true.
Proof.
  intros records.
  assert (H : clean Sample.repr_decimal Sample.iso_parse records <> [])
    by discriminate.
  split; [exact H |].
  exact (proj1 (X12_means_defined Sample.repr_decimal Sample.iso_parse records H)).
Defined.

(** ** Clamping and the score *)

Lemma clamp01_Fin (x : Q) :
  clamp01 (Fin x)
  = if Qltb x 1 then (if Qltb 0 x then Fin x else Fin 0) else Fin 1.
Proof.
  unfold clamp01, py_min, py_max, fgtb. simpl.
  destruct (Qltb x 1); simpl; [| reflexivity].
  destruct (Qltb 0 x); reflexivity.
Qed.

Lemma clamp01_mono (a b : float) :
  fleb a b = true -> fleb (clamp01 a) (clamp01 b) = true.
Proof.
  destruct a as [x | | |], b as [y | | |]; try discriminate;
    rewrite ?clamp01_Fin; intros H; try reflexivity.
  - apply fleb_Fin in H.
    destruct (Qltb x 1) eqn:X1, (Qltb 0 x) eqn:X0, (Qltb y 1) eqn:Y1,
      (Qltb 0 y) eqn:Y0;
      rewrite ?Qltb_lt, ?Qltb_ge in *; apply fleb_Fin; lra.
  - change (clamp01 PInf) with (Fin 1).
    destruct (Qltb x 1) eqn:X1, (Qltb 0 x) eqn:X0;
      rewrite ?Qltb_lt, ?Qltb_ge in *; apply fleb_Fin; lra.
  - change (clamp01 NInf) with (Fin 0).
    destruct (Qltb y 1) eqn:Y1, (Qltb 0 y) eqn:Y0;
      rewrite ?Qltb_lt, ?Qltb_ge in *; apply fleb_Fin; lra.
Qed.

(** X13.  [clamp01] is idempotent and monotone, leaves a value of [0, 1] as it
    is, and sends nan and +inf to 1.0 and -inf to 0.0. *)
Theorem X13_clamp01 :
  (forall v, clamp01 (clamp01 v) = clamp01 v)
  /\ (forall a b, fleb a b = true -> fleb (clamp01 a) (clamp01 b) = true)
  /\ (forall v, between 0 1 v -> feq (clamp01 v) v)
  /\ clamp01 NaN = Fin 1 /\ clamp01 PInf = Fin 1 /\ clamp01 NInf = Fin 0.
Proof.
  split; [| split; [exact clamp01_mono | split; [| repeat split]]].
  - intros v. destruct v as [x | | |]; try reflexivity.
    rewrite clamp01_Fin.
    destruct (Qltb x 1) eqn:X1; [| reflexivity].
    destruct (Qltb 0 x) eqn:X0; [| reflexivity].
    rewrite clamp01_Fin, X1, X0. reflexivity.
  - intros v [q [-> Hq]]. rewrite clamp01_Fin.
    destruct (Qltb q 1) eqn:X1, (Qltb 0 q) eqn:X0;
      rewrite ?Qltb_lt, ?Qltb_ge in *; simpl; lra.
Qed.

Lemma X13_witness :
  between 0 1 (Fin (1 # 2)) /\ feq (clamp01 (Fin (1 # 2))) (Fin (1 # 2)).
Proof.
  assert (H : between 0 1 (Fin (1 # 2))).
  { exists (1 # 2). split; [reflexivity |]. split; discriminate. }
  split; [exact H |].
  exact (proj1 (proj2 (proj2 X13_clamp01)) _ H).
Defined.

(** X14.  A metric that is nan gives its sub-risk the value 1.0: [min] and [max]
    keep their first argument against nan, so [clamp01(nan)] is 1.0, and
    [min(nan, 30.0)] is nan. *)
Theorem X14_nan_metric_is_full_risk (m : AggregateMetrics) :
  (avg_clv m = NaN -> clv_risk (sub_risks m) = Fin 1)
  /\ (pos_clv_rate m = NaN -> posclv_risk (sub_risks m) = Fin 1)
  /\ (stake_cv m = NaN -> stake_risk (sub_risks m) = Fin 1)
  /\ (market_hhi m = NaN -> market_risk (sub_risks m) = Fin 1)
  /\ (book_hhi m = NaN -> book_risk (sub_risks m) = Fin 1)
  /\ (lead_mean m = NaN -> lead_mean_risk (sub_risks m) = Fin 1)
  /\ (lead_std m = NaN -> lead_std_risk (sub_risks m) = Fin 1).
Proof.
  repeat split; intros H; simpl; rewrite H; reflexivity.
Qed.

Lemma X14_witness :
  let m := mkMetrics (Fin 2) (Fin (1 # 2)) NaN (Fin 1) (Fin 1) (Fin 6) NaN in
  stake_cv m = NaN /\ stake_risk (sub_risks m) = Fin 1
  /\ lead_std_risk (sub_risks m) = Fin 1.
Proof.
  intros m.
  assert (H : stake_cv m = NaN) by reflexivity.
  split; [exact H |].
  split.
  - exact (proj1 (proj2 (proj2 (X14_nan_metric_is_full_risk m))) H).
  - reflexivity.
Defined.

Lemma round_half_even_mono (x y : Q) :
  x <= y -> (round_half_even x <= round_half_even y)%Z.
Proof.
  intros Hxy. unfold round_half_even.
  pose proof (Qfloor_le x) as Fx. pose proof (Qlt_floor x) as Cx.
  pose proof (Qfloor_le y) as Fy. pose proof (Qlt_floor y) as Cy.
  pose proof (Qfloor_resp_le _ _ Hxy) as Hnm.
  rewrite inject_Z_plus in Cx, Cy.
  change (inject_Z 1) with 1 in Cx, Cy.
  destruct (Z.eq_dec (Qfloor x) (Qfloor y)) as [E | NE].
  - rewrite <- E in *.
    destruct (Qltb (x - inject_Z (Qfloor x)) (1 # 2)) eqn:X1,
             (Qltb (1 # 2) (x - inject_Z (Qfloor x))) eqn:X2,
             (Qltb (y - inject_Z (Qfloor x)) (1 # 2)) eqn:Y1,
             (Qltb (1 # 2) (y - inject_Z (Qfloor x))) eqn:Y2;
      rewrite ?Qltb_lt, ?Qltb_ge in *;
      try (destruct (Z.even (Qfloor x))); try lia; exfalso; lra.
  - assert (Hlt : (Qfloor x + 1 <= Qfloor y)%Z) by lia.
    destruct (Qltb (x - inject_Z (Qfloor x)) (1 # 2)),
             (Qltb (1 # 2) (x - inject_Z (Qfloor x))),
             (Qltb (y - inject_Z (Qfloor y)) (1 # 2)),
             (Qltb (1 # 2) (y - inject_Z (Qfloor y)));
      try (destruct (Z.even (Qfloor x))); try (destruct (Z.even (Qfloor y)));
      lia.
Qed.

Lemma risk_score_value (r : SubRisks) (a b c d e f g : Q) :
  clv_risk r = Fin a -> posclv_risk r = Fin b -> stake_risk r = Fin c ->
  market_risk r = Fin d -> book_risk r = Fin e -> lead_mean_risk r = Fin f ->
  lead_std_risk r = Fin g ->
  risk_score r
  = Fin (inject_Z (round_half_even
           (100 * ((28 # 100) * a + (12 # 100) * b + (16 # 100) * c
                   + (14 # 100) * d + (10 # 100) * e + (10 # 100) * f
                   + (10 # 100) * g) * 10)) / 10).
Proof.
  intros Ea Eb Ec Ed Ee Ef Eg. unfold risk_score, risk_01.
  rewrite Ea, Eb, Ec, Ed, Ee, Ef, Eg. reflexivity.
Qed.

Lemma tenths_le (j k : Z) :
  (j <= k)%Z -> fleb (Fin (inject_Z j / 10)) (Fin (inject_Z k / 10)) = true.
Proof.
  intros H. apply fleb_Fin. rewrite Zle_Qle in H.
  unfold Qdiv. apply Qmult_le_compat_r; [exact H | discriminate].
Qed.

Lemma risk_score_mono (r r' : SubRisks) :
  unit_risks r -> unit_risks r' -> risks_le r r' ->
  fleb (risk_score r) (risk_score r') = true.
Proof.
  intros [[a [Ea Ha]] [[b [Eb Hb]] [[c [Ec Hc]] [[d [Ed Hd]] [[e [Ee He]]
           [[f [Ef Hf]] [g [Eg Hg]]]]]]]]
         [[a' [Ea' Ha']] [[b' [Eb' Hb']] [[c' [Ec' Hc']] [[d' [Ed' Hd']]
           [[e' [Ee' He']] [[f' [Ef' Hf']] [g' [Eg' Hg']]]]]]]]
         [L1 [L2 [L3 [L4 [L5 [L6 L7]]]]]].
  rewrite Ea, Ea' in L1. rewrite Eb, Eb' in L2. rewrite Ec, Ec' in L3.
  rewrite Ed, Ed' in L4. rewrite Ee, Ee' in L5. rewrite Ef, Ef' in L6.
  rewrite Eg, Eg' in L7.
  apply fleb_Fin in L1, L2, L3, L4, L5, L6, L7.
  rewrite (risk_score_value r a b c d e f g) by assumption.
  rewrite (risk_score_value r' a' b' c' d' e' f' g') by assumption.
  apply tenths_le, round_half_even_mono. lra.
Qed.

(** X15.  The score is monotone in each sub-risk: raising sub-risks within
    [0, 1], the others fixed or raised too, never lowers the score. *)
Theorem X15_score_monotone (r r' : SubRisks) :
  unit_risks r -> unit_risks r' -> risks_le r r' ->
  fleb (risk_score r) (risk_score r') = true.
Proof. exact (risk_score_mono r r'). Qed.

Lemma fsub_mono (a b : float) (c : Q) :
  fleb a b = true -> fleb (fsub a (Fin c)) (fsub b (Fin c)) = true.
Proof.
  destruct a as [x | | |], b as [y | | |]; try discriminate;
    intros H; try reflexivity.
  apply fleb_Fin in H. apply fleb_Fin. lra.
Qed.

Lemma fsub_anti (a b : float) (c : Q) :
  fleb b a = true -> fleb (fsub (Fin c) a) (fsub (Fin c) b) = true.
Proof.
  destruct a as [x | | |], b as [y | | |]; try discriminate;
    intros H; try reflexivity.
  apply fleb_Fin in H. apply fleb_Fin. lra.
Qed.

Lemma np_div_mono (a b : float) (d : Q) :
  0 < d -> fleb a b = true ->
  fleb (np_div a (Fin d)) (np_div b (Fin d)) = true.
Proof.
  intros Hd.
  assert (E0 : Qeqb d 0 = false) by (apply Qeqb_neq; lra).
  assert (E1 : Qle_bool 0 d = true) by (apply Qle_bool_iff; lra).
  assert (E2 : Qltb d 0 = false) by (apply Qltb_ge; lra).
  destruct a as [x | | |], b as [y | | |]; try discriminate;
    unfold np_div; rewrite ?E0, ?E1, ?E2; intros H; try reflexivity.
  apply fleb_Fin in H. apply fleb_Fin.
  unfold Qdiv. apply Qmult_le_compat_r; [exact H |].
  apply Qinv_le_0_compat. lra.
Qed.

Lemma py_min_mono (a b : float) (k : Q) :
  fleb b a = true -> fleb (py_min b (Fin k)) (py_min a (Fin k)) = true.
Proof.
  unfold py_min.
  destruct a as [x | | |], b as [y | | |]; try discriminate; simpl;
    intros H; try reflexivity;
    try (apply Qle_bool_iff in H);
    repeat match goal with
           | |- context [Qltb ?u ?v] => destruct (Qltb u v) eqn:?
           end;
    rewrite ?Qltb_lt, ?Qltb_ge in *; try reflexivity;
    apply fleb_Fin; lra.
Qed.

Lemma sub_risks_unit (m : AggregateMetrics) : unit_risks (sub_risks m).
Proof. exact (sub_risks_between m). Qed.

Lemma sub_risks_mono (m m' : AggregateMetrics) :
  sharper m m' -> risks_le (sub_risks m) (sub_risks m').
Proof.
  intros [H1 [H2 [H3 [H4 [H5 [H6 H7]]]]]].
  unfold risks_le. simpl.
  repeat split; apply clamp01_mono, np_div_mono; try reflexivity;
    try (apply fsub_mono; assumption);
    apply fsub_anti, py_min_mono; assumption.
Qed.

(** X16.  The score follows the metrics: when the average CLV, the beat-close
    rate, the two concentrations and the mean lead time do not go down, and
    the stake variation and the lead-time deviation do not go up, the score
    does not go down. *)
Theorem X16_score_follows_metrics (m m' : AggregateMetrics) :
  sharper m m' ->
  fleb (risk_score (sub_risks m)) (risk_score (sub_risks m')) = true.
Proof.
  intros H. apply risk_score_mono.
  - apply sub_risks_unit.
  - apply sub_risks_unit.
  - apply sub_risks_mono. exact H.
Qed.

Lemma X15_witness :
  let r := mkRisks (Fin 0) (Fin 0) (Fin (1 # 2)) (Fin 1) (Fin 1) (Fin 0) (Fin 0) in
  let r' := mkRisks (Fin 1) (Fin 0) (Fin (1 # 2)) (Fin 1) (Fin 1) (Fin 0) (Fin 0) in
  unit_risks r /\ unit_risks r' /\ risks_le r r'
  /\ fleb (risk_score r) (risk_score r') = true.
Proof.
  intros r r'.
  assert (B0 : between 0 1 (Fin 0))
    by (exists 0; split; [reflexivity | split; discriminate]).
  assert (B1 : between 0 1 (Fin 1))
    by (exists 1; split; [reflexivity | split; discriminate]).
  assert (Bh : between 0 1 (Fin (1 # 2)))
    by (exists (1 # 2); split; [reflexivity | split; discriminate]).
  assert (U : unit_risks r) by (repeat split; assumption).
  assert (U' : unit_risks r') by (repeat split; assumption).
  assert (L : risks_le r r') by (repeat split; reflexivity).
  split; [exact U |]. split; [exact U' |]. split; [exact L |].
  exact (X15_score_monotone r r' U U' L).
Defined.

Lemma X16_witness :
  let m := mkMetrics (Fin 2) (Fin (1 # 2)) (Fin 20) (Fin (1 # 4)) (Fin (1 # 2))
                     (Fin 6) (Fin 8) in
  let m' := mkMetrics (Fin 4) (Fin (3 # 4)) (Fin 5) (Fin (1 # 2)) (Fin (1 # 2))
                      (Fin 30) (Fin 3) in
  sharper m m'
  /\ fleb (risk_score (sub_risks m)) (risk_score (sub_risks m')) = true.
Proof.
  intros m m'.
  assert (H : sharper m m') by (repeat split; reflexivity).
  split; [exact H |].
  exact (X16_score_follows_metrics m m' H).
Defined.

(** ** Advice, score and badge together *)

Lemma high_false_le (v : float) :
  between 0 1 v -> high v = false -> exists q, v = Fin q /\ 0 <= q <= 6 # 10.
Proof.
  intros [q [-> Hq]] H. unfold high, fgtb in H. simpl in H.
  apply Qltb_ge in H. exists q. split; [reflexivity | lra].
Qed.

Lemma high_true_gt (v : float) :
  between 0 1 v -> high v = true -> exists q, v = Fin q /\ 6 # 10 < q <= 1.
Proof.
  intros [q [-> Hq]] H. unfold high, fgtb in H. simpl in H.
  apply Qltb_lt in H. exists q. split; [reflexivity | lra].
Qed.

Lemma recs_nil_none_high (r : SubRisks) :
  recs r = [] ->
  high (clv_risk r) = false /\ high (posclv_risk r) = false
  /\ high (stake_risk r) = false /\ high (market_risk r) = false
  /\ high (book_risk r) = false /\ high (lead_mean_risk r) = false
  /\ high (lead_std_risk r) = false.
Proof.
  unfold recs, append_if.
  destruct (high (clv_risk r)), (high (posclv_risk r)), (high (stake_risk r)),
    (high (market_risk r)), (high (book_risk r)), (high (lead_mean_risk r)),
    (high (lead_std_risk r)); simpl; intros H; try discriminate H;
    repeat split.
Qed.

Lemma recs_seven_all_high (r : SubRisks) :
  List.length (recs r) = 7%nat ->
  high (clv_risk r) = true /\ high (posclv_risk r) = true
  /\ high (stake_risk r) = true /\ high (market_risk r) = true
  /\ high (book_risk r) = true /\ high (lead_mean_risk r) = true
  /\ high (lead_std_risk r) = true.
Proof.
  unfold recs, append_if.
  destruct (high (clv_risk r)), (high (posclv_risk r)), (high (stake_risk r)),
    (high (market_risk r)), (high (book_risk r)), (high (lead_mean_risk r)),
    (high (lead_std_risk r)); simpl; intros H; try discriminate H;
    repeat split.
Qed.

(** X17.  The neutral message and a red badge never go together: when no advice
    is triggered the score is at most 60.0, below the 66 of the red badge.
    And when all seven pieces of advice are triggered the score is at least
    60.0, so the badge is not green. *)
Theorem X17_advice_and_badge (m : AggregateMetrics) :
  (recs (sub_risks m) = [] ->
   recommendations (sub_risks m) = [Success neutral_message]
   /\ fleb (risk_score (sub_risks m)) (Fin 60) = true
   /\ badge (risk_score (sub_risks m)) <> "🔴"%string)
  /\ (List.length (recs (sub_risks m)) = 7%nat ->
      fleb (Fin 60) (risk_score (sub_risks m)) = true
      /\ badge (risk_score (sub_risks m)) <> "🟢"%string).
Proof.
  destruct (sub_risks_between m) as [B1 [B2 [B3 [B4 [B5 [B6 B7]]]]]].
  split.
  - intros Hn.
    split; [unfold recommendations; rewrite Hn; reflexivity |].
    destruct (recs_nil_none_high _ Hn) as [H1 [H2 [H3 [H4 [H5 [H6 H7]]]]]].
    destruct (high_false_le _ B1 H1) as [a [Ea Ha]].
    destruct (high_false_le _ B2 H2) as [b [Eb Hb]].
    destruct (high_false_le _ B3 H3) as [c [Ec Hc]].
    destruct (high_false_le _ B4 H4) as [d [Ed Hd]].
    destruct (high_false_le _ B5 H5) as [e [Ee He]].
    destruct (high_false_le _ B6 H6) as [f [Ef Hf]].
    destruct (high_false_le _ B7 H7) as [g [Eg Hg]].
    rewrite (risk_score_value _ a b c d e f g) by assumption.
    match goal with
    | |- context [round_half_even ?x] =>
        assert (Hk : (0 <= round_half_even x <= 600)%Z)
          by (apply round_half_even_bounds; unfold inject_Z; lra);
        set (k := round_half_even x) in *
    end.
    destruct Hk as [_ Hk]. rewrite Zle_Qle in Hk.
    change (inject_Z 600) with 600 in Hk.
    assert (Hq : inject_Z k / 10 <= 60) by (apply Qle_shift_div_r; lra).
    split; [apply fleb_Fin; exact Hq |].
    unfold badge, fgeb.
    assert (E : fleb (Fin 66) (Fin (inject_Z k / 10)) = false).
    { destruct (fleb (Fin 66) (Fin (inject_Z k / 10))) eqn:E; [| reflexivity].
      apply fleb_Fin in E. lra. }
    rewrite E. destruct (fleb (Fin 40) (Fin (inject_Z k / 10))); discriminate.
  - intros Hn.
    destruct (recs_seven_all_high _ Hn) as [H1 [H2 [H3 [H4 [H5 [H6 H7]]]]]].
    destruct (high_true_gt _ B1 H1) as [a [Ea Ha]].
    destruct (high_true_gt _ B2 H2) as [b [Eb Hb]].
    destruct (high_true_gt _ B3 H3) as [c [Ec Hc]].
    destruct (high_true_gt _ B4 H4) as [d [Ed Hd]].
    destruct (high_true_gt _ B5 H5) as [e [Ee He]].
    destruct (high_true_gt _ B6 H6) as [f [Ef Hf]].
    destruct (high_true_gt _ B7 H7) as [g [Eg Hg]].
    rewrite (risk_score_value _ a b c d e f g) by assumption.
    match goal with
    | |- context [round_half_even ?x] =>
        assert (Hk : (600 <= round_half_even x <= 1000)%Z)
          by (apply round_half_even_bounds; unfold inject_Z; lra);
        set (k := round_half_even x) in *
    end.
    destruct Hk as [Hk _]. rewrite Zle_Qle in Hk.
    change (inject_Z 600) with 600 in Hk.
    assert (Hq : 60 <= inject_Z k / 10) by (apply Qle_shift_div_l; lra).
    split; [apply fleb_Fin; exact Hq |].
    unfold badge, fgeb.
    assert (E : fleb (Fin 40) (Fin (inject_Z k / 10)) = true)
      by (apply fleb_Fin; lra).
    rewrite E. destruct (fleb (Fin 66) (Fin (inject_Z k / 10))); discriminate.
Qed.

Lemma X17_witness :
  let m := mkMetrics (Fin 0) (Fin (1 # 10)) (Fin 50) (Fin (1 # 5)) (Fin (1 # 5))
                     (Fin 3) (Fin 20) in
  recs (sub_risks m) = []
  /\ badge (risk_score (sub_risks m)) <> "🔴"%string.
Proof.
  intros m.
  assert (H : recs (sub_risks m) = []) by reflexivity.
  split; [exact H |].
  exact (proj2 (proj2 (proj1 (X17_advice_and_badge m) H))).
Defined.

(** ** The bands in terms of the metrics *)

Lemma Qltb_ext (a b c d : Q) : (a < b <-> c < d) -> Qltb a b = Qltb c d.
Proof.
  intros H. destruct (Qltb a b) eqn:E1, (Qltb c d) eqn:E2; try reflexivity;
    rewrite ?Qltb_lt, ?Qltb_ge in *; exfalso; destruct H as [H1 H2].
  - specialize (H1 E1). lra.
  - specialize (H2 E2). lra.
Qed.

Lemma high_clamp01_Fin (x : Q) : high (clamp01 (Fin x)) = Qltb (6 # 10) x.
Proof.
  rewrite clamp01_Fin. unfold high, fgtb.
  destruct (Qltb x 1) eqn:X1; [destruct (Qltb 0 x) eqn:X0 |]; simpl;
    rewrite ?Qltb_lt, ?Qltb_ge in *.
  - reflexivity.
  - apply Qltb_ext. split; intros; lra.
  - apply Qltb_ext. split; intros; lra.
Qed.

(** A rising band: [clamp01((x - c) / d)] is above 0.6 exactly when [x] is
    above [c + 0.6 d]. *)
Lemma rising_band (x : float) (c d t : Q) :
  0 < d -> t == c + (6 # 10) * d -> isnan x = false ->
  high (clamp01 (np_div (fsub x (Fin c)) (Fin d))) = fgtb x (Fin t).
Proof.
  intros Hd Ht Hx.
  assert (E0 : Qeqb d 0 = false) by (apply Qeqb_neq; lra).
  assert (E1 : Qle_bool 0 d = true) by (apply Qle_bool_iff; lra).
  assert (E2 : Qltb d 0 = false) by (apply Qltb_ge; lra).
  destruct x as [q | | |]; try discriminate; unfold fsub, np_div; simpl;
    rewrite ?E0, ?E1, ?E2; simpl; try reflexivity.
  rewrite high_clamp01_Fin. apply Qltb_ext.
  assert (Hs : (q + - c) / d == (q - c) * / d) by (unfold Qdiv; ring).
  rewrite Hs, Ht.
  assert (Hi : 0 < / d) by (apply Qinv_lt_0_compat; exact Hd).
  assert (Hm : (q - c) * / d - (6 # 10) == (q - (c + (6 # 10) * d)) * / d).
  { field. lra. }
  split; intros H.
  - assert (H0 : 0 < (q - (c + (6 # 10) * d)) * / d) by (rewrite <- Hm; lra).
    destruct (Qlt_le_dec (c + (6 # 10) * d) q) as [Hlt | Hle]; [exact Hlt |].
    exfalso.
    pose proof (Qmult_le_compat_r (q - (c + (6 # 10) * d)) 0 (/ d)
                  ltac:(lra) ltac:(lra)) as Hc.
    lra.
  - assert (H0 : 0 < (q - (c + (6 # 10) * d)) * / d)
      by (apply Qmult_lt_0_compat; lra).
    lra.
Qed.

(** A falling band: [clamp01((c - min(x, k)) / c)] is above 0.6 exactly when
    [x] is below [0.4 c], for a cap [k] above that. *)
Lemma falling_band (x : float) (c k t : Q) :
  0 < c -> t == (4 # 10) * c -> t < k -> isnan x = false ->
  high (clamp01 (np_div (fsub (Fin c) (py_min x (Fin k))) (Fin c)))
  = fltb x (Fin t).
Proof.
  intros Hc Ht Hk Hx.
  assert (E0 : Qeqb c 0 = false) by (apply Qeqb_neq; lra).
  assert (E1 : Qle_bool 0 c = true) by (apply Qle_bool_iff; lra).
  assert (Hi : 0 < / c) by (apply Qinv_lt_0_compat; exact Hc).
  assert (Band : forall y, Qltb (6 # 10) ((c + - y) / c) = Qltb y t).
  { intros y. apply Qltb_ext. rewrite Ht.
    assert (Hm : (c + - y) / c - (6 # 10) == ((4 # 10) * c - y) * / c).
    { field. lra. }
    split; intros H.
    - assert (H0 : 0 < ((4 # 10) * c - y) * / c) by (rewrite <- Hm; lra).
      destruct (Qlt_le_dec y ((4 # 10) * c)) as [Hlt | Hle]; [exact Hlt |].
      exfalso.
      pose proof (Qmult_le_compat_r ((4 # 10) * c - y) 0 (/ c)
                    ltac:(lra) ltac:(lra)) as Hn.
      lra.
    - assert (H0 : 0 < ((4 # 10) * c - y) * / c)
        by (apply Qmult_lt_0_compat; lra).
      lra. }
  destruct x as [q | | |]; try discriminate; unfold py_min; simpl.
  - destruct (Qltb k q) eqn:Kq; unfold fsub, np_div; simpl; rewrite E0;
      rewrite high_clamp01_Fin, Band; rewrite ?Qltb_lt, ?Qltb_ge in *.
    + apply Qltb_ext. split; intros; lra.
    + reflexivity.
  - unfold fsub, np_div. simpl. rewrite E0.
    rewrite high_clamp01_Fin, Band.
    apply Qltb_ge. lra.
  - unfold fsub, np_div. simpl. rewrite E1. reflexivity.
Qed.

Lemma high_clamp01 (v : float) :
  high (clamp01 v) = isnan v || fgtb v (Fin (6 # 10)).
Proof.
  destruct v as [x | | |]; try reflexivity. apply high_clamp01_Fin.
Qed.

Lemma fleb_not_nan (a b : float) :
  fleb a b = true -> isnan a = false /\ isnan b = false.
Proof. destruct a, b; try discriminate; split; reflexivity. Qed.

Lemma fgtb_above (x : float) (t hi : Q) :
  t < hi -> fleb (Fin hi) x = true -> fgtb x (Fin t) = true.
Proof.
  intros Ht. destruct x as [q | | |]; try discriminate; try reflexivity.
  intros H. apply fleb_Fin in H. unfold fgtb. apply fltb_Fin. lra.
Qed.

Lemma fgtb_below (x : float) (t lo : Q) :
  lo <= t -> fleb x (Fin lo) = true -> fgtb x (Fin t) = false.
Proof.
  intros Ht. destruct x as [q | | |]; try discriminate; try reflexivity.
  intros H. apply fleb_Fin in H. unfold fgtb. simpl. apply Qltb_ge. lra.
Qed.

Lemma fltb_below (x : float) (t lo : Q) :
  lo < t -> fleb x (Fin lo) = true -> fltb x (Fin t) = true.
Proof.
  intros Ht. destruct x as [q | | |]; try discriminate; try reflexivity.
  intros H. apply fleb_Fin in H. apply fltb_Fin. lra.
Qed.

Lemma fltb_above (x : float) (t hi : Q) :
  t <= hi -> fleb (Fin hi) x = true -> fltb x (Fin t) = false.
Proof.
  intros Ht. destruct x as [q | | |]; try discriminate; try reflexivity.
  intros H. apply fleb_Fin in H. simpl. apply Qltb_ge. lra.
Qed.

(** X18.  Clamping does not change which advice appears: a band value is
    above 0.6 after [clamp01] exactly when it was above 0.6 before, or was
    nan.  In terms of the metrics, away from the switching point: an average
    CLV of 3.41 or more triggers its advice and 3.39 or less does not; a
    beat-close rate of 0.71 or more does and 0.69 or less does not; a stake
    variation of 4.7 or less does and 4.9 or more does not; a market
    concentration of 0.57 or more does and 0.55 or less does not; a book
    concentration of 0.62 or more does and 0.60 or less does not; a mean
    lead time of 40.9 hours or more does and 40.7 or less does not; a
    lead-time deviation of 2.3 hours or less does and 2.5 or more does
    not. *)
Theorem X18_advice_thresholds (m : AggregateMetrics) :
  (forall v, high (clamp01 v) = isnan v || fgtb v (Fin (6 # 10)))
  /\ (fleb (Fin (341 # 100)) (avg_clv m) = true ->
      high (clv_risk (sub_risks m)) = true)
  /\ (fleb (avg_clv m) (Fin (339 # 100)) = true ->
      high (clv_risk (sub_risks m)) = false)
  /\ (fleb (Fin (71 # 100)) (pos_clv_rate m) = true ->
      high (posclv_risk (sub_risks m)) = true)
  /\ (fleb (pos_clv_rate m) (Fin (69 # 100)) = true ->
      high (posclv_risk (sub_risks m)) = false)
  /\ (fleb (stake_cv m) (Fin (47 # 10)) = true ->
      high (stake_risk (sub_risks m)) = true)
  /\ (fleb (Fin (49 # 10)) (stake_cv m) = true ->
      high (stake_risk (sub_risks m)) = false)
  /\ (fleb (Fin (57 # 100)) (market_hhi m) = true ->
      high (market_risk (sub_risks m)) = true)
  /\ (fleb (market_hhi m) (Fin (55 # 100)) = true ->
      high (market_risk (sub_risks m)) = false)
  /\ (fleb (Fin (62 # 100)) (book_hhi m) = true ->
      high (book_risk (sub_risks m)) = true)
  /\ (fleb (book_hhi m) (Fin (60 # 100)) = true ->
      high (book_risk (sub_risks m)) = false)
  /\ (fleb (Fin (409 # 10)) (lead_mean m) = true ->
      high (lead_mean_risk (sub_risks m)) = true)
  /\ (fleb (lead_mean m) (Fin (407 # 10)) = true ->
      high (lead_mean_risk (sub_risks m)) = false)
  /\ (fleb (lead_std m) (Fin (23 # 10)) = true ->
      high (lead_std_risk (sub_risks m)) = true)
  /\ (fleb (Fin (25 # 10)) (lead_std m) = true ->
      high (lead_std_risk (sub_risks m)) = false).
Proof.
  split; [exact high_clamp01 |].
  repeat split; intros H;
    cbn [sub_risks clv_risk posclv_risk stake_risk market_risk book_risk
         lead_mean_risk lead_std_risk].
  - rewrite (rising_band _ 1 4 (34 # 10)); try reflexivity;
      [refine (fgtb_above _ (34 # 10) _ _ H); reflexivity | exact (proj2 (fleb_not_nan _ _ H))].
  - rewrite (rising_band _ 1 4 (34 # 10)); try reflexivity;
      [refine (fgtb_below _ (34 # 10) _ _ H); discriminate
      | exact (proj1 (fleb_not_nan _ _ H))].
  - rewrite (rising_band _ (55 # 100) (25 # 100) (70 # 100)); try reflexivity;
      [refine (fgtb_above _ (70 # 100) _ _ H); reflexivity | exact (proj2 (fleb_not_nan _ _ H))].
  - rewrite (rising_band _ (55 # 100) (25 # 100) (70 # 100)); try reflexivity;
      [refine (fgtb_below _ (70 # 100) _ _ H); discriminate
      | exact (proj1 (fleb_not_nan _ _ H))].
  - rewrite (falling_band _ 12 30 (48 # 10)); try reflexivity;
      [refine (fltb_below _ (48 # 10) _ _ H); reflexivity | exact (proj1 (fleb_not_nan _ _ H))].
  - rewrite (falling_band _ 12 30 (48 # 10)); try reflexivity;
      [refine (fltb_above _ (48 # 10) _ _ H); discriminate
      | exact (proj2 (fleb_not_nan _ _ H))].
  - rewrite (rising_band _ (20 # 100) (60 # 100) (56 # 100)); try reflexivity;
      [refine (fgtb_above _ (56 # 100) _ _ H); reflexivity | exact (proj2 (fleb_not_nan _ _ H))].
  - rewrite (rising_band _ (20 # 100) (60 # 100) (56 # 100)); try reflexivity;
      [refine (fgtb_below _ (56 # 100) _ _ H); discriminate
      | exact (proj1 (fleb_not_nan _ _ H))].
  - rewrite (rising_band _ (25 # 100) (60 # 100) (61 # 100)); try reflexivity;
      [refine (fgtb_above _ (61 # 100) _ _ H); reflexivity | exact (proj2 (fleb_not_nan _ _ H))].
  - rewrite (rising_band _ (25 # 100) (60 # 100) (61 # 100)); try reflexivity;
      [refine (fgtb_below _ (61 # 100) _ _ H); discriminate
      | exact (proj1 (fleb_not_nan _ _ H))].
  - rewrite (rising_band _ 12 48 (408 # 10)); try reflexivity;
      [refine (fgtb_above _ (408 # 10) _ _ H); reflexivity | exact (proj2 (fleb_not_nan _ _ H))].
  - rewrite (rising_band _ 12 48 (408 # 10)); try reflexivity;
      [refine (fgtb_below _ (408 # 10) _ _ H); discriminate
      | exact (proj1 (fleb_not_nan _ _ H))].
  - rewrite (falling_band _ 6 24 (24 # 10)); try reflexivity;
      [refine (fltb_below _ (24 # 10) _ _ H); reflexivity | exact (proj1 (fleb_not_nan _ _ H))].
  - rewrite (falling_band _ 6 24 (24 # 10)); try reflexivity;
      [refine (fltb_above _ (24 # 10) _ _ H); discriminate
      | exact (proj2 (fleb_not_nan _ _ H))].
Qed.

Lemma X18_witness :
  let m := mkMetrics (Fin (35 # 10)) (Fin (1 # 2)) (Fin 5) (Fin 1) (Fin (3 # 5))
                     (Fin 6) (Fin 2) in
  fleb (Fin (341 # 100)) (avg_clv m) = true
  /\ high (clv_risk (sub_risks m)) = true
  /\ In advice_clv (recs (sub_risks m)).
Proof.
  intros m.
  assert (H : fleb (Fin (341 # 100)) (avg_clv m) = true) by reflexivity.
  split; [exact H |].
  split; [exact (proj1 (proj2 (X18_advice_thresholds m)) H) |].
  left. reflexivity.
Defined.

(** ** Where the score reaches its bounds *)

Lemma fleb_antisym (a b : float) :
  fleb a b = true -> fleb b a = true -> feq a b.
Proof.
  destruct a as [x | | |], b as [y | | |]; try discriminate; simpl; auto.
  intros H1 H2. apply Qle_bool_iff in H1. apply Qle_bool_iff in H2. lra.
Qed.

Lemma risk_score_between (m : AggregateMetrics) :
  fleb (Fin 0) (risk_score (sub_risks m)) = true
  /\ fleb (risk_score (sub_risks m)) (Fin 100) = true.
Proof.
  assert (Hw : between 0 100 (fmul (Fin 100) (risk_01 (sub_risks m)))).
  { destruct (sub_risks_between m) as [H1 [H2 [H3 [H4 [H5 [H6 H7]]]]]].
    apply weighted_sum_between; assumption. }
  apply round1_between in Hw. fold (risk_score (sub_risks m)) in Hw.
  destruct Hw as [q [-> Hq]]. split; apply fleb_Fin; lra.
Qed.

(** X19.  Both bounds of the score are reached.  The score is 0.0 when the average
    CLV is at most 1, the beat-close rate at most 0.55, the stake variation
    at least 12, the market and book concentrations at most 0.20 and 0.25,
    the mean lead time at most 12 hours and its deviation at least 6 hours.
    It is 100.0 when they are at least 5, at least 0.80, at most 0, at least
    0.80 and 0.85, at least 60 hours and at most 0 hours. *)
Theorem X19_score_extremes (m : AggregateMetrics) :
  (sharper m calm_metrics -> feq (risk_score (sub_risks m)) (Fin 0))
  /\ (sharper sharp_metrics m -> feq (risk_score (sub_risks m)) (Fin 100)).
Proof.
  destruct (risk_score_between m) as [H0 H100].
  split; intros H.
  - apply fleb_antisym; [| exact H0].
    assert (E : risk_score (sub_risks calm_metrics) = Fin (inject_Z 0 / 10))
      by reflexivity.
    pose proof (risk_score_mono _ _ (sub_risks_unit m)
                  (sub_risks_unit calm_metrics) (sub_risks_mono _ _ H)) as L.
    rewrite E in L. destruct (risk_score (sub_risks m)); try discriminate.
    apply fleb_Fin in L. apply fleb_Fin.
    assert (Hz : inject_Z 0 / 10 == 0) by reflexivity.
    rewrite Hz in L. exact L.
  - apply fleb_antisym; [exact H100 |].
    assert (E : risk_score (sub_risks sharp_metrics) = Fin (inject_Z 1000 / 10))
      by reflexivity.
    pose proof (risk_score_mono _ _ (sub_risks_unit sharp_metrics)
                  (sub_risks_unit m) (sub_risks_mono _ _ H)) as L.
    rewrite E in L. destruct (risk_score (sub_risks m)); try discriminate.
    apply fleb_Fin in L. apply fleb_Fin.
    assert (Hz : inject_Z 1000 / 10 == 100) by reflexivity.
    rewrite Hz in L. exact L.
Qed.

Lemma X19_witness :
  let m := mkMetrics (Fin (- (2))) (Fin (1 # 3)) (Fin 40) (Fin (1 # 10))
                     (Fin (1 # 5)) (Fin 2) (Fin 9) in
  sharper m calm_metrics /\ feq (risk_score (sub_risks m)) (Fin 0).
Proof.
  intros m.
  assert (H : sharper m calm_metrics) by (repeat split; reflexivity).
  split; [exact H |].
  exact (proj1 (X19_score_extremes m) H).
Defined.

(** ** Herfindahl index: bounds and order of the rows *)

Lemma Qsum_ext {A : Type} (f g : A -> Q) (l : list A) :
  (forall x, In x l -> f x == g x) -> Qsum (map f l) == Qsum (map g l).
Proof.
  induction l as [| a t IH]; intros H; [reflexivity |].
  change (f a + Qsum (map f t) == g a + Qsum (map g t)).
  rewrite (H a) by (left; reflexivity).
  rewrite IH by (intros x Hx; apply H; right; exact Hx). reflexivity.
Qed.

Lemma Qsum_scale (k : Q) (l : list Q) :
  Qsum (map (fun x => x * k) l) == Qsum l * k.
Proof.
  induction l as [| a t IH]; [simpl; ring |].
  change (a * k + Qsum (map (fun x => x * k) t) == (a + Qsum t) * k).
  rewrite IH. ring.
Qed.

Lemma Qsum_perm {A : Type} (f : A -> Q) (l l' : list A) :
  Permutation l l' -> Qsum (map f l) == Qsum (map f l').
Proof.
  induction 1 as [| x l l' _ IH | x y l | l l' l'' _ IH1 _ IH2].
  - reflexivity.
  - change (f x + Qsum (map f l) == f x + Qsum (map f l')). rewrite IH.
    reflexivity.
  - change (f y + (f x + Qsum (map f l)) == f x + (f y + Qsum (map f l))).
    ring.
  - rewrite IH1. exact IH2.
Qed.

Lemma Qsum_nonneg (l : list Q) :
  (forall x, In x l -> 0 <= x) -> 0 <= Qsum l.
Proof.
  induction l as [| a t IH]; intros H; [discriminate |].
  change (0 <= a + Qsum t).
  assert (0 <= a) by (apply H; left; reflexivity).
  assert (0 <= Qsum t) by (apply IH; intros x Hx; apply H; right; exact Hx).
  lra.
Qed.

Lemma Qsqr_nonneg (x : Q) : 0 <= x * x.
Proof.
  destruct (Qlt_le_dec x 0) as [H | H].
  - assert (E : x * x == (- x) * (- x)) by ring. rewrite E.
    apply Qmult_le_0_compat; lra.
  - apply Qmult_le_0_compat; exact H.
Qed.

(** Sum of squares against square of the sum, for counts. *)
Lemma squares_le_square (l : list Q) :
  (forall x, In x l -> 0 <= x) ->
  Qsum (map (fun x => x * x) l) <= Qsum l * Qsum l.
Proof.
  induction l as [| a t IH]; intros H; [discriminate |].
  change (a * a + Qsum (map (fun x => x * x) t)
          <= (a + Qsum t) * (a + Qsum t)).
  assert (Ha : 0 <= a) by (apply H; left; reflexivity).
  assert (Ht : forall x, In x t -> 0 <= x) by (intros x Hx; apply H; right; exact Hx).
  specialize (IH Ht). pose proof (Qsum_nonneg t Ht) as Hs.
  pose proof (Qmult_le_0_compat _ _ Ha Hs) as Hm.
  assert (E : (a + Qsum t) * (a + Qsum t)
              == a * a + Qsum t * Qsum t + 2 * (a * Qsum t)) by ring.
  rewrite E. lra.
Qed.

Lemma squares_around (c : Q) (l : list Q) :
  0 <= Qsum (map (fun x => x * x) l)
       + inject_Z (Z.of_nat (List.length l)) * (c * c) - 2 * (c * Qsum l).
Proof.
  induction l as [| a t IH].
  - simpl. unfold inject_Z. ring_simplify. discriminate.
  - change (Qsum (map (fun x => x * x) (a :: t)))
      with (a * a + Qsum (map (fun x => x * x) t)).
    change (Qsum (a :: t)) with (a + Qsum t).
    change (List.length (a :: t)) with (S (List.length t)).
    rewrite Nat2Z.inj_succ. unfold Z.succ. rewrite inject_Z_plus.
    change (inject_Z 1) with 1.
    pose proof (Qsqr_nonneg (a - c)) as Hq.
    assert (E : a * a + Qsum (map (fun x => x * x) t)
                + (inject_Z (Z.of_nat (List.length t)) + 1) * (c * c)
                - 2 * (c * (a + Qsum t))
                == (Qsum (map (fun x => x * x) t)
                    + inject_Z (Z.of_nat (List.length t)) * (c * c)
                    - 2 * (c * Qsum t))
                   + (a - c) * (a - c)) by ring.
    rewrite E. lra.
Qed.

(** The square of a sum is at most the number of terms times the sum of the
    squares. *)
Lemma square_le_squares (l : list Q) :
  Qsum l * Qsum l
  <= inject_Z (Z.of_nat (List.length l)) * Qsum (map (fun x => x * x) l).
Proof.
  induction l as [| a t IH].
  - simpl. unfold inject_Z. ring_simplify. discriminate.
  - change (Qsum (map (fun x => x * x) (a :: t)))
      with (a * a + Qsum (map (fun x => x * x) t)).
    change (Qsum (a :: t)) with (a + Qsum t).
    change (List.length (a :: t)) with (S (List.length t)).
    rewrite Nat2Z.inj_succ. unfold Z.succ. rewrite inject_Z_plus.
    change (inject_Z 1) with 1.
    pose proof (squares_around a t) as Hr.
    assert (E1 : (a + Qsum t) * (a + Qsum t)
                 == Qsum t * Qsum t + a * a + 2 * (a * Qsum t)) by ring.
    assert (E2 : (inject_Z (Z.of_nat (List.length t)) + 1)
                 * (a * a + Qsum (map (fun x => x * x) t))
                 == inject_Z (Z.of_nat (List.length t))
                      * Qsum (map (fun x => x * x) t)
                    + (Qsum (map (fun x => x * x) t)
                       + inject_Z (Z.of_nat (List.length t)) * (a * a))
                    + a * a) by ring.
    rewrite E1, E2. lra.
Qed.

Section HerfindahlMore.

Variable A : Type.
Variable A_eq_dec : forall x y : A, {x = y} + {x <> y}.

Lemma list_sum_count_cons (a : A) (t D : list A) :
  list_sum (map (count_occ A_eq_dec (a :: t)) D)
  = (list_sum (map (count_occ A_eq_dec t) D) + count_occ A_eq_dec D a)%nat.
Proof.
  induction D as [| x D' IH]; [reflexivity |].
  change (count_occ A_eq_dec (a :: t) x
          + list_sum (map (count_occ A_eq_dec (a :: t)) D')
          = (count_occ A_eq_dec t x + list_sum (map (count_occ A_eq_dec t) D')
             + count_occ A_eq_dec (x :: D') a))%nat.
  rewrite IH. cbn [count_occ].
  destruct (A_eq_dec a x) as [E1 | N1], (A_eq_dec x a) as [E2 | N2];
    try congruence; lia.
Qed.

Lemma list_sum_count_nil (D : list A) :
  list_sum (map (count_occ A_eq_dec []) D) = 0%nat.
Proof. induction D as [| x D' IH]; [reflexivity | simpl; exact IH]. Qed.

(** The counts of the distinct values add up to the number of rows. *)
Lemma counts_total (l D : list A) :
  NoDup D -> (forall x, In x l -> In x D) ->
  list_sum (map (count_occ A_eq_dec l) D) = List.length l.
Proof.
  intros HD. induction l as [| a t IH]; intros Hin.
  - apply list_sum_count_nil.
  - rewrite list_sum_count_cons.
    rewrite IH by (intros x Hx; apply Hin; right; exact Hx).
    assert (Ha : In a D) by (apply Hin; left; reflexivity).
    rewrite (proj1 (NoDup_count_occ' A_eq_dec D) HD a Ha).
    simpl. lia.
Qed.

Lemma Qsum_inject (f : A -> nat) (D : list A) :
  Qsum (map (fun x => inject_Z (Z.of_nat (f x))) D)
  == inject_Z (Z.of_nat (list_sum (map f D))).
Proof.
  induction D as [| x D' IH]; [reflexivity |].
  change (inject_Z (Z.of_nat (f x))
          + Qsum (map (fun x => inject_Z (Z.of_nat (f x))) D')
          == inject_Z (Z.of_nat (f x + list_sum (map f D')))).
  rewrite IH, Nat2Z.inj_add, inject_Z_plus. reflexivity.
Qed.

Lemma herfindahl_total (series : list A) :
  Qsum (map (fun x => inject_Z (Z.of_nat (count_occ A_eq_dec series x)))
            (nodup A_eq_dec series))
  == inject_Z (Z.of_nat (List.length series)).
Proof.
  rewrite Qsum_inject, counts_total; [reflexivity | apply NoDup_nodup |].
  intros x Hx. apply nodup_In. exact Hx.
Qed.

(** In exact arithmetic the index is the sum of the squared counts over the
    squared number of rows, and lies between [1/N], for [N] distinct values,
    and 1. *)
Lemma herfindahl_squares (series : list A) :
  herfindahl A_eq_dec [] == 0
  /\ (series <> [] ->
      let count := fun x => inject_Z (Z.of_nat (count_occ A_eq_dec series x)) in
      let n := inject_Z (Z.of_nat (List.length series)) in
      let N := inject_Z (Z.of_nat (List.length (nodup A_eq_dec series))) in
      herfindahl A_eq_dec series
      == Qsum (map (fun x => count x * count x) (nodup A_eq_dec series)) / (n * n)
      /\ 1 / N <= herfindahl A_eq_dec series <= 1).
Proof.
  split; [reflexivity |].
  intros Hne count n N.
  set (D := nodup A_eq_dec series) in *.
  assert (Hn : 0 < n) by (apply inject_nat_pos; exact Hne).
  assert (HD : D <> []).
  { destruct series as [| a t]; [contradiction |].
    intros E. assert (Ha : In a D) by (apply nodup_In; left; reflexivity).
    rewrite E in Ha. contradiction. }
  assert (HN : 0 < N) by (apply inject_nat_pos; exact HD).
  assert (Hnn : 0 < n * n) by (apply Qmult_lt_0_compat; exact Hn).
  assert (Ht : Qsum (map count D) == n) by apply herfindahl_total.
  assert (Hform : herfindahl A_eq_dec series
                  == Qsum (map (fun x => count x * count x) D) / (n * n)).
  { rewrite herfindahl_unfold. cbv zeta. fold count. fold D.
    rewrite (Qsum_ext (fun x => (count x / Qsum (map count D)) ^ 2)
               (fun x => count x * count x * / (n * n))).
    - rewrite <- (map_map (fun x => count x * count x)
                          (fun y => y * / (n * n))).
      rewrite Qsum_scale. reflexivity.
    - intros x _. rewrite Ht. simpl Qpower. field. lra. }
  split; [exact Hform |].
  rewrite Hform.
  set (cs := map count D).
  assert (Hsq : Qsum (map (fun x => count x * count x) D)
                == Qsum (map (fun c => c * c) cs)).
  { unfold cs. rewrite map_map. reflexivity. }
  assert (Hpos : forall c, In c cs -> 0 <= c).
  { intros c Hc. apply in_map_iff in Hc. destruct Hc as [x [<- _]].
    unfold count. change 0 with (inject_Z 0). rewrite <- Zle_Qle. lia. }
  assert (Hcs : Qsum cs == n) by exact Ht.
  assert (Hlen : inject_Z (Z.of_nat (List.length cs)) == N).
  { unfold cs. rewrite length_map. reflexivity. }
  pose proof (squares_le_square cs Hpos) as Hup.
  pose proof (square_le_squares cs) as Hlo.
  rewrite Hcs in Hup, Hlo. rewrite Hlen in Hlo.
  rewrite Hsq. split.
  - apply Qle_shift_div_l; [exact Hnn |].
    assert (E : 1 / N * (n * n) == n * n / N) by (field; lra).
    rewrite E. apply Qle_shift_div_r; [exact HN |].
    rewrite (Qmult_comm (Qsum (map (fun c => c * c) cs)) N). exact Hlo.
  - apply Qle_shift_div_r; [exact Hnn |]. lra.
Qed.

(** X20.  The index of a column that is not empty is positive and at most
    1; the index of an empty column is 0. *)
Theorem X20_herfindahl_bounds (series : list A) :
  herfindahl A_eq_dec [] == 0
  /\ (series <> [] ->
      0 < herfindahl A_eq_dec series /\ herfindahl A_eq_dec series <= 1).
Proof.
  split; [reflexivity |]. intros Hne.
  destruct (proj2 (herfindahl_squares series) Hne) as [_ [Hlo Hhi]].
  split; [| exact Hhi].
  assert (HD : nodup A_eq_dec series <> []).
  { destruct series as [| a t]; [contradiction |].
    intros E.
    assert (Ha : In a (nodup A_eq_dec (a :: t)))
      by (apply nodup_In; left; reflexivity).
    rewrite E in Ha. contradiction. }
  pose proof (inject_nat_pos _ HD) as HN.
  assert (Hp : 0 < 1 / inject_Z (Z.of_nat (List.length (nodup A_eq_dec series)))).
  { apply Qlt_shift_div_l; [exact HN | lra]. }
  lra.
Qed.

(** X21.  The index does not depend on the order of the rows. *)
Theorem X21_herfindahl_order (l l' : list A) :
  Permutation l l' -> herfindahl A_eq_dec l == herfindahl A_eq_dec l'.
Proof.
  intros HP. rewrite !herfindahl_unfold. cbv zeta.
  assert (Hc : forall x, count_occ A_eq_dec l x = count_occ A_eq_dec l' x)
    by (apply Permutation_count_occ; exact HP).
  assert (HD : Permutation (nodup A_eq_dec l) (nodup A_eq_dec l')).
  { apply NoDup_Permutation; try apply NoDup_nodup.
    intros x. rewrite !nodup_In. split; intros H.
    - exact (Permutation_in _ HP H).
    - exact (Permutation_in _ (Permutation_sym HP) H). }
  assert (Ht : Qsum (map (fun x => inject_Z (Z.of_nat (count_occ A_eq_dec l x)))
                         (nodup A_eq_dec l))
               == Qsum (map (fun x => inject_Z (Z.of_nat (count_occ A_eq_dec l' x)))
                            (nodup A_eq_dec l'))).
  { rewrite !herfindahl_total. rewrite (Permutation_length HP). reflexivity. }
  rewrite (Qsum_perm _ _ _ HD).
  apply Qsum_ext. intros x _. rewrite Hc, Ht. reflexivity.
Qed.

End HerfindahlMore.

Lemma X20_witness :
  let series := [Some "Totals"; None; Some "Totals"]%string in
  series <> []
  /\ 0 < herfindahl category_eq_dec series
  /\ herfindahl category_eq_dec series <= 1.
Proof.
  intros series.
  assert (H : series <> []) by discriminate.
  split; [exact H |].
  exact (proj2 (X20_herfindahl_bounds _ category_eq_dec series) H).
Defined.

Lemma X21_witness :
  let l := [Some "Totals"; None; Some "Moneyline"]%string in
  let l' := [None; Some "Moneyline"; Some "Totals"]%string in
  Permutation l l'
  /\ herfindahl category_eq_dec l == herfindahl category_eq_dec l'.
Proof.
  intros l l'.
  assert (H : Permutation l l').
  { unfold l, l'.
    apply perm_trans with (l' := [None; Some "Totals"; Some "Moneyline"]%string).
    - apply perm_swap.
    - apply perm_skip. apply perm_swap. }
  split; [exact H |].
  exact (X21_herfindahl_order _ category_eq_dec l l' H).
Defined.

(** ** A table whose rows are all dropped *)


Section AllDropped.

Variable str_float : float -> string.
Variable dateutil_parse : list ascii -> option Z.



End AllDropped.

